(** * Triage classifier of the hospital management system

    A shallow embedding of [ai_services.py]: the lazily loaded spaCy
    annotator, the text normaliser [preprocess_text], the orchestrator
    class [TriageAI] and the entry point [assess_patient_symptoms],
    followed by the properties the specification states about them.

    scikit-learn, numpy and spaCy are third-party libraries.  They enter
    the development as values of record types ([Pipeline], [Language])
    and as variables of the section [Environment]; whatever is assumed
    about them is written as an explicit hypothesis of the theorem that
    needs it. *)

From Stdlib Require Import NArith ZArith QArith List String Ascii Bool Arith Lia.
Import ListNotations.

Local Open Scope list_scope.

(* ================================================================== *)
(** ** Python values *)
(* ================================================================== *)

Module Py.

(** A Python [str] is a sequence of Unicode code points. *)
Definition codepoint := N.
Definition str := list codepoint.

Definition ord (a : ascii) : codepoint := N_of_ascii a.

(** An ASCII string literal of the source. *)
Fixpoint lit (s : string) : str :=
match s with
| EmptyString => []
| String a r => ord a :: lit r
end.

(** [a == b] on [str]. *)
Fixpoint str_eqb (a b : str) : bool :=
match a, b with
| [], [] => true
| x :: a', y :: b' => N.eqb x y && str_eqb a' b'
| _, _ => false
end.

Fixpoint startswith (s p : str) {struct p} : bool :=
match p, s with
| [], _ => true
| x :: p', y :: s' => N.eqb x y && startswith s' p'
| _ :: _, [] => false
end.

(** [p in s]: [p] occurs in [s] as a contiguous substring. *)
Fixpoint contains (s p : str) : bool :=
startswith s p ||
match s with
| [] => false
| _ :: s' => contains s' p
end.

(** [sep.join(parts)]. *)
Fixpoint join (sep : str) (parts : list str) : str :=
match parts with
| [] => []
| [p] => p
| p :: rest => p ++ sep ++ join sep rest
end.

(** A Python [float].  Every finite IEEE double is a rational number, and
  the comparisons of the source are exact on doubles, so a finite
  float is carried as the rational it denotes. *)
Inductive float :=
| Finite (q : Q)
| Inf (negative : bool)
| NaN.

(** IEEE comparison [a < b]: false as soon as one side is NaN. *)
Definition flt (a b : float) : bool :=
match a, b with
| NaN, _ | _, NaN => false
| Finite x, Finite y => if Qlt_le_dec x y then true else false
| Finite _, Inf neg => negb neg
| Inf neg, Finite _ => neg
| Inf n1, Inf n2 => n1 && negb n2
end.

Definition fle (a b : float) : bool :=
match a, b with
| NaN, _ | _, NaN => false
| Finite x, Finite y => if Qlt_le_dec y x then false else true
| Finite _, Inf neg => negb neg
| Inf neg, Finite _ => neg
| Inf n1, Inf n2 => n1 || negb n2
end.

(** The literal [0.0]. *)
Definition f0 : float := Finite 0.

(** The literal [0.6]: the double nearest to 6/10, which is
  5404319552844595 / 2^53. *)
Definition f0_6 : float := Finite (5404319552844595 # 9007199254740992).

(** Exceptions.  Only subclasses of [Exception] are represented, the ones
  a [except Exception] clause catches; [KeyboardInterrupt] and
  [SystemExit], which are delivered from outside the code, are not part
  of the model. *)
Inductive exc_class := OSError | ImportError | IndexError | ValueError | OtherException.

Record exn := mkExn { exc_type : exc_class; exc_str : str }.

Definition is_OSError (e : exn) : bool :=
match exc_type e with OSError => true | _ => false end.

Inductive result (A : Type) :=
| Ok (a : A)
| Raise (e : exn).
Arguments Ok {A} a.
Arguments Raise {A} e.

Definition is_ok {A} (r : result A) : bool :=
match r with Ok _ => true | Raise _ => false end.

(** [a[0]] on a sequence. *)
Definition index0 {A} (a : list A) : result A :=
match a with
| x :: _ => Ok x
| [] => Raise (mkExn IndexError (lit "index 0 is out of bounds for axis 0 with size 0"))
end.

(** [numpy.maximum] on two floats: NaN wins. *)
Definition fmax (a b : float) : float :=
match a, b with
| NaN, _ | _, NaN => NaN
| _, _ => if flt a b then b else a
end.

(** [float(np.max(a))]: the largest element; an empty array raises. *)
Definition np_max (a : list float) : result float :=
match a with
| [] => Raise (mkExn ValueError
                 (lit "zero-size array to reduction operation maximum which has no identity"))
| x :: rest => Ok (fold_left fmax rest x)
end.

End Py.

Import Py.

(* ================================================================== *)
(** ** The Unicode character database *)
(* ================================================================== *)

(** [str.lower()] and the classes [\w] and [\s] of [re] are fixed by the
    source on ASCII; beyond ASCII they are read from the tables of the
    Unicode character database, taken here as a record.  Lower-casing a
    code point may give several code points and may look at its
    neighbours (the final sigma). *)
Record UnicodeDB := {
  to_lower_full : str -> codepoint -> str -> str;
  uni_isalnum : codepoint -> bool;
  uni_isspace : codepoint -> bool
}.

Definition in_range (lo hi c : N) : bool := (N.leb lo c && N.leb c hi)%bool.

Definition is_ascii (c : codepoint) : bool := N.ltb c 128.

Definition ascii_lower (c : codepoint) : codepoint :=
  if in_range 65 90 c then (c + 32)%N else c.

Section Unicode.
Variable ucd : UnicodeDB.

Fixpoint lower_from (before s : str) : str :=
  match s with
  | [] => []
  | c :: rest =>
      (if is_ascii c then [ascii_lower c] else to_lower_full ucd before c rest)
        ++ lower_from (before ++ [c]) rest
  end.

(** [s.lower()]. *)
Definition lower (s : str) : str := lower_from [] s.

(** [\w]: alphanumeric or underscore. *)
Definition is_word (c : codepoint) : bool :=
  if is_ascii c
  then in_range 48 57 c || in_range 65 90 c || in_range 97 122 c || N.eqb c 95
  else uni_isalnum ucd c.

(** [\s]: [str.isspace]; on ASCII, tab to carriage return, the four
    separators 0x1c to 0x1f, and the space. *)
Definition is_space (c : codepoint) : bool :=
  if is_ascii c
  then in_range 9 13 c || in_range 28 31 c || N.eqb c 32
  else uni_isspace ucd c.

(** The character class [[^\w\s]]. *)
Definition not_word_not_space (c : codepoint) : bool :=
  negb (is_word c || is_space c).

(** [re.sub(cls, repl, s)] for a pattern that is one character class:
    every character of the class is replaced by [repl], the others are
    copied. *)
Definition re_sub_class (cls : codepoint -> bool) (repl s : str) : str :=
  flat_map (fun c => if cls c then repl else [c]) s.
End Unicode.

(* ================================================================== *)
(** ** Third-party objects *)
(* ================================================================== *)

(** A spaCy token, as far as [preprocess_text] reads it. *)
Record Token := mkToken {
  lemma_ : str;
  is_stop : bool;
  is_punct : bool
}.

(** A loaded spaCy pipeline; [call nlp text] is [nlp(text)], which gives
    the tokens of the document or raises. *)
Record Language := mkLanguage {
  call : str -> result (list Token)
}.

(** A scikit-learn [Pipeline]; both methods take a batch of documents. *)
Record Pipeline := mkPipeline {
  predict : list str -> result (list str);
  predict_proba : list str -> result (list (list float))
}.

(* ================================================================== *)
(** ** Module state and effects *)
(* ================================================================== *)

Inductive level := INFO | WARNING | ERROR.

(** The mutable state of the module: the global [_nlp], the records
    written to [logger], and the number of times [spacy.load] has been
    attempted so far in this process. *)
Record World := mkWorld {
  _nlp : option Language;
  spacy_attempts : nat;
  log : list (level * str)
}.

(** A computation reads and updates the world and returns or raises; the
    updates made before an exception is raised stay. *)
Definition M (A : Type) : Type := World -> result A * World.

Definition ret {A} (a : A) : M A := fun w => (Ok a, w).

Definition bind {A B} (c : M A) (k : A -> M B) : M B :=
  fun w =>
    match c w with
    | (Ok a, w') => k a w'
    | (Raise e, w') => (Raise e, w')
    end.

Definition lift {A} (r : result A) : M A := fun w => (r, w).

(** [try: body  except Exception as e: handler e]. *)
Definition try_except {A} (body : M A) (handler : exn -> M A) : M A :=
  fun w =>
    match body w with
    | (Ok a, w') => (Ok a, w')
    | (Raise e, w') => handler e w'
    end.

Declare Scope py_scope.
Delimit Scope py_scope with py.
Notation "x <- c ;; k" := (bind c (fun x => k))
  (at level 61, c at next level, right associativity) : py_scope.
Notation "c ;; k" := (bind c (fun _ => k))
  (at level 61, right associativity) : py_scope.
Local Open Scope py_scope.

Fixpoint mapM {A B} (f : A -> M B) (l : list A) : M (list B) :=
  match l with
  | [] => ret []
  | a :: rest => b <- f a ;; bs <- mapM f rest ;; ret (b :: bs)
  end.

Definition read_nlp : M (option Language) := fun w => (Ok (_nlp w), w).

Definition write_nlp (v : option Language) : M unit :=
  fun w => (Ok tt, mkWorld v (spacy_attempts w) (log w)).

Definition logger (lv : level) (msg : str) : M unit :=
  fun w => (Ok tt, mkWorld (_nlp w) (spacy_attempts w) (log w ++ [(lv, msg)])).

(* ================================================================== *)
(** ** The training corpus *)
(* ================================================================== *)

(** The degree sign of the corpus is the code point U+00B0. *)
Definition deg : str := [176%N].

Definition TRIAGE_TRAINING_DATA : list (str * str) :=
  [ (lit "I have a mild headache", lit "Low");
    (lit "Slight cough for one day", lit "Low");
    (lit "Runny nose and sneezing", lit "Low");
    (lit "Minor cuts and scrapes", lit "Low");
    (lit "Mild sore throat", lit "Low");
    (lit "Slight fever below 38" ++ deg ++ lit "C", lit "Low");
    (lit "Mild joint pain", lit "Low");
    (lit "Minor skin rash", lit "Low");

    (lit "Persistent headache for several days", lit "Medium");
    (lit "Fever between 38" ++ deg ++ lit "C and 39" ++ deg ++ lit "C", lit "Medium");
    (lit "Cough with colored phlegm", lit "Medium");
    (lit "Dehydration with some dizziness", lit "Medium");
    (lit "Persistent vomiting", lit "Medium");
    (lit "Flu symptoms with high fever", lit "Medium");
    (lit "Ear pain with discharge", lit "Medium");
    (lit "Urinary tract infection symptoms", lit "Medium");

    (lit "Severe abdominal pain", lit "High");
    (lit "Difficulty breathing", lit "High");
    (lit "High fever above 39" ++ deg ++ lit "C", lit "High");
    (lit "Chest pain", lit "High");
    (lit "Severe headache with neck stiffness", lit "High");
    (lit "Sudden vision changes", lit "High");
    (lit "Deep cut requiring stitches", lit "High");
    (lit "Broken bone or suspected fracture", lit "High");

    (lit "Unconsciousness or fainting", lit "Critical");
    (lit "Severe chest pain radiating to arm or jaw", lit "Critical");
    (lit "Inability to breathe", lit "Critical");
    (lit "Severe bleeding that won't stop", lit "Critical");
    (lit "Poisoning or overdose", lit "Critical");
    (lit "Seizure", lit "Critical");
    (lit "Severe burn", lit "Critical");
    (lit "Stroke symptoms like facial drooping", lit "Critical") ].

Definition MEDICAL_TRAINING_DATA : list (str * str) :=
  [ (lit "Mild rhinitis with nasal discharge", lit "Low");
    (lit "Slight pharyngitis with minimal discomfort", lit "Low");
    (lit "Minor contusions", lit "Low");
    (lit "Localized dermatitis", lit "Low");

    (lit "Moderate pyrexia with myalgia", lit "Medium");
    (lit "Persistent emesis", lit "Medium");
    (lit "Otitis media with effusion", lit "Medium");
    (lit "Uncomplicated cystitis", lit "Medium");

    (lit "Acute dyspnea", lit "High");
    (lit "Severe cephalgia with photophobia", lit "High");
    (lit "Suspected appendicitis", lit "High");
    (lit "Open fracture requiring reduction", lit "High");

    (lit "Syncope with irregular cardiac rhythm", lit "Critical");
    (lit "Acute myocardial infarction", lit "Critical");
    (lit "Status epilepticus", lit "Critical");
    (lit "Cerebrovascular accident with hemiparesis", lit "Critical") ].

Definition ALL_TRAINING_DATA : list (str * str) :=
  TRIAGE_TRAINING_DATA ++ MEDICAL_TRAINING_DATA.

(* ================================================================== *)
(** ** The orchestrator *)
(* ================================================================== *)

(** An instance of [TriageAI]. *)
Record TriageAI := mkTriageAI {
  model : option Pipeline;
  confidence_threshold : float
}.

(** The dict returned by [assess_symptoms]. *)
Record Assessment := mkAssessment {
  severity : str;
  recommendation : str;
  confidence : float
}.

(** [d.get(key, default)] on a dict written as its items. *)
Fixpoint dict_get (d : list (str * str)) (key default : str) : str :=
  match d with
  | [] => default
  | (k, v) :: rest => if str_eqb k key then v else dict_get rest key default
  end.

Definition recommendations : list (str * str) :=
  [ (lit "Low",
     lit "Your symptoms suggest a non-urgent condition. Rest, hydrate, and monitor symptoms. If they persist for more than 2-3 days or worsen, schedule a regular appointment.");
    (lit "Medium",
     lit "Your symptoms may require medical attention. Schedule an appointment in the next 1-2 days. Monitor for worsening symptoms.");
    (lit "High",
     lit "Your symptoms require prompt medical attention. Please schedule an urgent appointment or visit urgent care within 24 hours.");
    (lit "Critical",
     lit "Your symptoms suggest a potentially life-threatening condition. Seek immediate emergency medical attention or call emergency services.") ].

Definition default_recommendation : str :=
  lit "Please consult with a healthcare professional for proper evaluation.".

(** The disclaimer starts with two line feeds. *)
Definition disclaimer : str :=
  [10%N; 10%N] ++
  lit "Note: This is an initial assessment with limited confidence. A healthcare professional should verify this assessment.".

Definition generate_recommendation
    (self : TriageAI) (severity : str) (confidence : float) (symptoms : str) : str :=
  let base_recommendation := dict_get recommendations severity default_recommendation in
  if flt confidence (confidence_threshold self)
  then base_recommendation ++ disclaimer
  else base_recommendation.

Definition no_model_assessment : Assessment :=
  mkAssessment (lit "Unknown")
    (lit "Error in AI model. Please consult with a healthcare professional directly.")
    f0.

Definition inference_error_assessment : Assessment :=
  mkAssessment (lit "Unknown")
    (lit "An error occurred during assessment. Please consult with a healthcare professional.")
    f0.

Section Environment.

(** The Unicode tables of the interpreter. *)
Variable ucd : UnicodeDB.

(** Whether the import of numpy and scikit-learn at the top of the
    module succeeded; set once and never assigned again. *)
Variable ML_AVAILABLE : bool.

(** [spacy_load n] is what the [n]-th execution of
    [import spacy; spacy.load("en_core_web_sm")] does in this process:
    it returns a pipeline or raises. *)
Variable spacy_load : nat -> result Language.

(** [sk_fit X y] is
    [Pipeline([('tfidf', TfidfVectorizer(max_features=1000)),
               ('clf', MultinomialNB())]).fit(X, y)]:
    the fitted pipeline, or an exception. *)
Variable sk_fit : list str -> list str -> result Pipeline.

Definition import_spacy_and_load : M Language :=
  fun w =>
    (spacy_load (spacy_attempts w),
     mkWorld (_nlp w) (S (spacy_attempts w)) (log w)).

Definition get_nlp_model : M (option Language) :=
  cached <- read_nlp ;;
  match cached with
  | None =>
      try_except
        (loaded <- import_spacy_and_load ;;
         write_nlp (Some loaded) ;;
         logger INFO (lit "spaCy model loaded successfully"))
        (fun e =>
           if is_OSError e
           then
             logger WARNING (lit "spaCy model not found. Using simple tokenization instead.") ;;
             write_nlp None
           else
             logger WARNING (lit "Failed to load spaCy model: " ++ exc_str e ++
                             lit ". Using simple tokenization instead.") ;;
             write_nlp None)
  | Some _ => ret tt
  end ;;
  read_nlp.

Definition keep_token (t : Token) : bool := negb (is_stop t) && negb (is_punct t).

(** [if nlp]: a loaded [Language] is an object without [__bool__] or
    [__len__], hence true; only [None] takes the [else] branch. *)
Definition preprocess_text (text : str) : M str :=
  nlp <- get_nlp_model ;;
  match nlp with
  | Some nlp =>
      doc <- lift (call nlp (lower ucd text)) ;;
      let tokens := map lemma_ (filter keep_token doc) in
      ret (join (lit " ") tokens)
  | None =>
      let text := lower ucd text in
      let text := re_sub_class (not_word_not_space ucd) [] text in
      ret text
  end.

Definition set_model (self : TriageAI) (m : option Pipeline) : TriageAI :=
  mkTriageAI m (confidence_threshold self).

(** [self.initialize_model()]; the instance after the call is returned. *)
Definition initialize_model (self : TriageAI) : M TriageAI :=
  if negb ML_AVAILABLE then
    logger WARNING (lit "Cannot initialize model: ML dependencies not available") ;;
    ret (set_model self None)
  else
    try_except
      (let symptoms := map fst ALL_TRAINING_DATA in
       let severities := map snd ALL_TRAINING_DATA in
       preprocessed_symptoms <- mapM preprocess_text symptoms ;;
       fitted <- lift (sk_fit preprocessed_symptoms severities) ;;
       logger INFO (lit "Triage AI model successfully initialized") ;;
       ret (set_model self (Some fitted)))
      (fun e =>
         logger ERROR (lit "Error initializing triage model: " ++ exc_str e) ;;
         ret (set_model self None)).

(** [TriageAI()]. *)
Definition TriageAI_init : M TriageAI :=
  let self := mkTriageAI None f0_6 in
  if ML_AVAILABLE then initialize_model self
  else
    logger WARNING (lit "ML dependencies not available. Triage AI will use fallback mode.") ;;
    ret self.

(** The body of the [try] of [assess_symptoms], with the model at hand. *)
Definition assess_body (self : TriageAI) (m : Pipeline) (symptoms_text : str)
  : M Assessment :=
  preprocessed_symptoms <- preprocess_text symptoms_text ;;
  predicted <- lift (predict m [preprocessed_symptoms]) ;;
  severity <- lift (index0 predicted) ;;
  probas <- lift (predict_proba m [preprocessed_symptoms]) ;;
  probabilities <- lift (index0 probas) ;;
  confidence <-
    (if ML_AVAILABLE then lift (np_max probabilities)
     else match probabilities with
          | p :: _ => ret p
          | [] => ret f0
          end) ;;
  let recommendation := generate_recommendation self severity confidence symptoms_text in
  ret (mkAssessment severity recommendation confidence).

(** [if not self.model]: a [Pipeline] has the length of its list of
    steps, two here, and is therefore true. *)
Definition assess_symptoms (self : TriageAI) (symptoms_text : str) : M Assessment :=
  match model self with
  | None => ret no_model_assessment
  | Some m =>
      try_except
        (assess_body self m symptoms_text)
        (fun e =>
           logger ERROR (lit "Error in symptom assessment: " ++ exc_str e) ;;
           ret inference_error_assessment)
  end.

Definition assess_patient_symptoms (triage_ai : TriageAI) (symptoms_text : str)
  : M Assessment :=
  assess_symptoms triage_ai symptoms_text.

End Environment.

(* ================================================================== *)
(** ** Vocabulary of the specification *)
(* ================================================================== *)

(** The values the specification allows for the field [severity]. *)
Definition VALID_SEVERITIES : list str :=
  [lit "Low"; lit "Medium"; lit "High"; lit "Critical"; lit "Unknown"].

(** The four classes of the corpus. *)
Definition SEVERITY_CLASSES : list str :=
  [lit "Low"; lit "Medium"; lit "High"; lit "Critical"].

Definition f1 : float := Finite 1.

(** [0 <= p <= 1]. *)
Definition in_unit_interval (p : float) : bool := fle f0 p && fle p f1.

(** What the development assumes of a fitted scikit-learn classifier: it
    predicts labels it was trained on, and the entries of the rows of
    [predict_proba] lie between 0 and 1. *)
Definition predicts_within (m : Pipeline) (labels : list str) : Prop :=
  forall X ys, predict m X = Ok ys -> Forall (fun y => In y labels) ys.

Definition proba_within_unit (m : Pipeline) : Prop :=
  forall X rows, predict_proba m X = Ok rows ->
    Forall (Forall (fun p => in_unit_interval p = true)) rows.

Definition sklearn_contract (fit : list str -> list str -> result Pipeline) : Prop :=
  forall X y m, fit X y = Ok m -> predicts_within m y /\ proba_within_unit m.

(** A normalised probability distribution: non-negative rationals that
    sum to one. *)
Definition Qsum (qs : list Q) : Q := fold_right Qplus 0 qs.

Definition distribution (qs : list Q) : Prop :=
  Forall (fun q => 0 <= q) qs /\ Qsum qs == 1.

(** The regex path of the normaliser, in the words of the specification:
    lower-case, then keep exactly the word characters and the
    whitespace. *)
Definition normalize_regex_spec (ucd : UnicodeDB) (text : str) : str :=
  filter (fun c => is_word ucd c || is_space ucd c) (lower ucd text).

(** What [preprocess_text] computes once [get_nlp_model] has returned
    [nlp]. *)
Definition normalize_with (ucd : UnicodeDB) (nlp : option Language) (text : str)
  : result str :=
  match nlp with
  | Some nlp =>
      match call nlp (lower ucd text) with
      | Ok doc => Ok (join (lit " ") (map lemma_ (filter keep_token doc)))
      | Raise e => Raise e
      end
  | None => Ok (re_sub_class (not_word_not_space ucd) [] (lower ucd text))
  end.

Definition bind_result {A B} (r : result A) (k : A -> result B) : result B :=
  match r with
  | Ok a => k a
  | Raise e => Raise e
  end.

(** What the body of the [try] of [assess_symptoms] computes from the
    normalised text [pre]: none of these steps touches the world. *)
Definition infer (ML_AVAILABLE : bool) (self : TriageAI) (m : Pipeline)
    (symptoms_text pre : str) : result Assessment :=
  bind_result (predict m [pre]) (fun predicted =>
  bind_result (index0 predicted) (fun severity =>
  bind_result (predict_proba m [pre]) (fun probas =>
  bind_result (index0 probas) (fun probabilities =>
  bind_result (if ML_AVAILABLE then np_max probabilities
               else match probabilities with
                    | p :: _ => Ok p
                    | [] => Ok f0
                    end) (fun confidence =>
  Ok (mkAssessment severity
        (generate_recommendation self severity confidence symptoms_text)
        confidence)))))).

(** What [assess_symptoms] returns, with model [m], once [get_nlp_model]
    has answered [nlp]. *)
Definition assessment_given (ucd : UnicodeDB) (ML_AVAILABLE : bool) (self : TriageAI)
    (m : Pipeline) (symptoms_text : str) (nlp : result (option Language)) : Assessment :=
  match bind_result (bind_result nlp (fun nlp => normalize_with ucd nlp symptoms_text))
          (infer ML_AVAILABLE self m symptoms_text) with
  | Ok a => a
  | Raise _ => inference_error_assessment
  end.

(** The state of a freshly imported module. *)
Definition initial_world : World := mkWorld None 0 [].

(** Both components of a finished computation. *)
Definition value_of {A} (x : result A * World) : result A := fst x.
Definition world_of {A} (x : result A * World) : World := snd x.

(** The warning [get_nlp_model] logs when the load raised [e]. *)
Definition load_failure_warning (e : exn) : str :=
  if is_OSError e
  then lit "spaCy model not found. Using simple tokenization instead."
  else lit "Failed to load spaCy model: " ++ exc_str e ++
       lit ". Using simple tokenization instead.".

Section Traces.
Variable spacy_load : nat -> result Language.

(** [n] successive calls of [get_nlp_model]: what each returned, and the
    world after the last. *)
Fixpoint get_nlp_model_calls (n : nat) (w : World)
  : list (result (option Language)) * World :=
  match n with
  | O => ([], w)
  | S k =>
      let (r, w1) := get_nlp_model spacy_load w in
      let (rs, w2) := get_nlp_model_calls k w1 in
      (r :: rs, w2)
  end.

(** How many of the attempts made so far loaded the annotator. *)
Definition successful_loads (w : World) : nat :=
  List.length (filter (fun i => is_ok (spacy_load i)) (seq 0 (spacy_attempts w))).

(** The load attempt a call made in world [w] would see fails. *)
Definition next_load_fails (w : World) : Prop :=
  is_ok (spacy_load (spacy_attempts w)) = false.

(** The cache agrees with the history of the attempts: empty as long as
    no attempt succeeded, filled by the only one that did. *)
Definition cache_consistent (w : World) : Prop :=
  match _nlp w with
  | None => successful_loads w = 0%nat
  | Some _ => successful_loads w = 1%nat
  end.
End Traces.

(* ================================================================== *)
(** ** A concrete environment *)
(* ================================================================== *)

(** Stand-ins for the third-party libraries, small enough to run: they
    are used to exhibit concrete runs of the code above. *)
Module Fixture.

(** Tables that leave every code point beyond ASCII as it is and put
    none of them in [\w] or [\s]. *)
Definition ascii_ucd : UnicodeDB :=
  {| to_lower_full := fun _ c _ => [c];
     uni_isalnum := fun _ => false;
     uni_isspace := fun _ => false |}.

Fixpoint split_on (sep : codepoint) (cur s : str) : list str :=
  match s with
  | [] => [cur]
  | c :: rest =>
      if N.eqb c sep then cur :: split_on sep [] rest
      else split_on sep (cur ++ [c]) rest
  end.

Definition stop_words : list str :=
  [lit "i"; lit "have"; lit "a"; lit "to"; lit "or"; lit "for"; lit "with"; lit "and"].

Definition is_empty (s : str) : bool :=
  match s with [] => true | _ => false end.

(** An annotator that cuts the text at spaces, flags a few stop words
    and takes every word as its own lemma. *)
Definition stopword_nlp : Language :=
  mkLanguage (fun text =>
    Ok (map (fun word => mkToken word (existsb (str_eqb word) stop_words) false)
            (filter (fun word => negb (is_empty word)) (split_on 32%N [] text)))).

Fixpoint lookup (docs : list (str * str)) (x : str) : option str :=
  match docs with
  | [] => None
  | (d, l) :: rest => if str_eqb d x then Some l else lookup rest x
  end.

Definition one_hot (label : str) : list float :=
  map (fun c => if str_eqb c label then f1 else f0) SEVERITY_CLASSES.

Definition uniform4 : list float :=
  [Finite (1#4); Finite (1#4); Finite (1#4); Finite (1#4)].

(** A classifier that memorises its training set: a document seen in
    training gets its label with probability one, any other document
    the first label of the training set with the uniform distribution.
    Like scikit-learn it refuses an empty training set. *)
Definition memo_fit (X y : list str) : result Pipeline :=
  match y with
  | [] => Raise (mkExn ValueError (lit "Found array with 0 sample(s)"))
  | l0 :: _ =>
      Ok (mkPipeline
            (fun xs => Ok (map (fun x => match lookup (combine X y) x with
                                         | Some l => l
                                         | None => l0
                                         end) xs))
            (fun xs => Ok (map (fun x => match lookup (combine X y) x with
                                         | Some l => one_hot l
                                         | None => uniform4
                                         end) xs)))
  end.

(** A pipeline whose [predict] raises. *)
Definition failing_pipeline : Pipeline :=
  mkPipeline
    (fun _ => Raise (mkExn ValueError (lit "Input contains NaN")))
    (fun _ => Ok []).

(** spaCy is not installed: every attempt raises [OSError]. *)
Definition spacy_missing : nat -> result Language :=
  fun _ => Raise (mkExn OSError (lit "[E050] Can't find model 'en_core_web_sm'.")).

(** spaCy is installed: every attempt loads the annotator. *)
Definition spacy_present : nat -> result Language :=
  fun _ => Ok stopword_nlp.

(** The load fails for the first [n] attempts and succeeds from then
    on. *)
Definition spacy_after (n : nat) : nat -> result Language :=
  fun i => if Nat.ltb i n then spacy_missing i else Ok stopword_nlp.

(** The load raises something that is not an [OSError] on the first
    attempt, [OSError] on the second and succeeds from the third on. *)
Definition spacy_flaky : nat -> result Language :=
  fun i =>
    match i with
    | O => Raise (mkExn ImportError (lit "No module named 'spacy'"))
    | S O => Raise (mkExn OSError (lit "[E050] Can't find model 'en_core_web_sm'."))
    | _ => Ok stopword_nlp
    end.

Definition chest_pain : str := lit "Severe chest pain radiating to arm or jaw".

(** A process in which spaCy cannot be loaded while the model is trained
    (48 attempts, one for each text of the corpus) nor at the first
    assessment, and can be loaded from then on. *)
Definition late_spacy : nat -> result Language := spacy_after 49.

Definition trained : result TriageAI * World :=
  TriageAI_init ascii_ucd true late_spacy memo_fit initial_world.

Definition trained_ai : TriageAI :=
  match fst trained with
  | Ok triage_ai => triage_ai
  | Raise _ => mkTriageAI None f0_6
  end.

(** A process in which spaCy can never be loaded. *)
Definition trained_without_spacy : result TriageAI * World :=
  TriageAI_init ascii_ucd true spacy_missing memo_fit initial_world.

Definition regex_ai : TriageAI :=
  match fst trained_without_spacy with
  | Ok triage_ai => triage_ai
  | Raise _ => mkTriageAI None f0_6
  end.

Definition first_call : result Assessment * World :=
  assess_symptoms ascii_ucd true late_spacy trained_ai chest_pain (snd trained).

Definition second_call : result Assessment * World :=
  assess_symptoms ascii_ucd true late_spacy trained_ai chest_pain (snd first_call).

End Fixture.

(* ================================================================== *)
(** ** Effects on the annotator *)
(* ================================================================== *)

Section Footprint.
Variable spacy_load : nat -> result Language.

(** What an operation that runs from [w] to [w'] may do to the annotator:
    it keeps the cache in agreement with the history of the attempts, it
    makes at most [n] load attempts, and a filled cache stays as it is,
    with no attempt at all. *)
Definition annotator_kept (n : nat) (w w' : World) : Prop :=
  (cache_consistent spacy_load w -> cache_consistent spacy_load w')
  /\ (spacy_attempts w <= spacy_attempts w' <= spacy_attempts w + n)%nat
  /\ (forall nlp, _nlp w = Some nlp ->
        _nlp w' = Some nlp /\ spacy_attempts w' = spacy_attempts w).

(** No load succeeds from the attempt a call in [w] would make on. *)
Definition spacy_unavailable_from (w : World) : Prop :=
  forall i, (spacy_attempts w <= i)%nat -> is_ok (spacy_load i) = false.
End Footprint.

Section Sessions.
Variable ucd : UnicodeDB.
Variable ML_AVAILABLE : bool.
Variable spacy_load : nat -> result Language.

(** One call of [assess_symptoms] for each text, in order. *)
Fixpoint assess_each (self : TriageAI) (texts : list str) (w : World)
  : list (result Assessment) * World :=
  match texts with
  | [] => ([], w)
  | text :: rest =>
      let (r, w1) := assess_symptoms ucd ML_AVAILABLE spacy_load self text w in
      let (rs, w2) := assess_each self rest w1 in
      (r :: rs, w2)
  end.
End Sessions.

(** The length of the column [severity] of [TriageAssessment]
    ([db.String(20)] in [models.py]), where the caller stores the
    severity. *)
Definition SEVERITY_COLUMN_LENGTH : nat := 20.

(** The option a fallible call leaves in [self.model]. *)
Definition model_of (r : result Pipeline) : option Pipeline :=
  match r with
  | Ok m => Some m
  | Raise _ => None
  end.

(* ================================================================== *)
(** ** Display helpers ([utils.py]) *)
(* ================================================================== *)

(** [s[lo:hi]] and [s[lo:]] for [0 <= lo <= hi]. *)
Definition slice (lo hi : nat) (s : str) : str := firstn (hi - lo) (skipn lo s).
Definition slice_from (lo : nat) (s : str) : str := skipn lo s.

Section Phone.
(** [str.isdigit] beyond ASCII, from the Unicode tables. *)
Variable uni_isdigit : codepoint -> bool.

Definition isdigit (c : codepoint) : bool :=
  if is_ascii c then in_range 48 57 c else uni_isdigit c.

(** [format_phone_number(phone)]; [phone] is a string or [None]. *)
Definition format_phone_number (phone : option str) : str :=
  match phone with
  | None => []
  | Some [] => []
  | Some phone =>
      let nums := filter isdigit phone in
      if Nat.eqb (List.length nums) 10 then
        lit "(" ++ slice 0 3 nums ++ lit ") " ++ slice 3 6 nums ++ lit "-" ++ slice_from 6 nums
      else if Nat.eqb (List.length nums) 11
              && match nums with
                 | c :: _ => N.eqb c (ord "1")
                 | [] => false
                 end then
        lit "(" ++ slice 1 4 nums ++ lit ") " ++ slice 4 7 nums ++ lit "-" ++ slice_from 7 nums
      else phone
  end.
End Phone.

(* ================================================================== *)
(** ** Dates ([models.py], [forms.py]) *)
(* ================================================================== *)

(** The fields of a [date] (or of a [datetime]) the code reads. *)
Record date := mkDate { year : Z; month : Z; day : Z }.

(** [(a1, a2) < (b1, b2)] on tuples of integers. *)
Definition tuple_lt (a b : Z * Z) : bool :=
  (fst a <? fst b)%Z || ((fst a =? fst b)%Z && (snd a <? snd b)%Z).

(** A [bool] used as an integer. *)
Definition int_of_bool (b : bool) : Z := if b then 1%Z else 0%Z.

(** [Patient.age()], with [today] for [datetime.today()]. *)
Definition age (today date_of_birth : date) : Z :=
  (year today - year date_of_birth
   - int_of_bool (tuple_lt (month today, day today)
                           (month date_of_birth, day date_of_birth)))%Z.

(** [a < b] on dates: by year, then month, then day. *)
Definition date_lt (a b : date) : bool :=
  (year a <? year b)%Z
  || ((year a =? year b)%Z && tuple_lt (month a, day a) (month b, day b)).

Definition date_le (a b : date) : bool := negb (date_lt b a).

(** [PatientForm.validate_date_of_birth], with [today] for
    [date.today()]; [ValidationError] is a subclass of [ValueError]. *)
Definition validate_date_of_birth (today field_data : date) : result unit :=
  if date_lt today field_data
  then Raise (mkExn ValueError (lit "Date of birth cannot be in the future."))
  else Ok tt.

(** [a] is before [b], as a proposition. *)
Definition before (a b : date) : Prop :=
  (year a < year b
   \/ (year a = year b
       /\ (month a < month b \/ (month a = month b /\ day a < day b))))%Z.

(** The date [n] years after [d], as a triple to compare. *)
Definition add_years (d : date) (n : Z) : date :=
  mkDate (year d + n) (month d) (day d).

(* ================================================================== *)
(** ** Directory sizes ([app.py], [scripts/check_function_size.py]) *)
(* ================================================================== *)

(** A directory as [os.walk] sees it: the names that are not directories,
    each with what [os.path.getsize] does on it (its size, or [None] when
    it raises [OSError]), and the sub-directories it descends into. *)
Inductive Dir :=
| mkDir (files : list (str * option Z)) (subdirs : list (str * Dir)).

(** A path, as the list of the names below the top directory. *)
Definition path := list str.

Fixpoint path_eqb (a b : path) : bool :=
  match a, b with
  | [], [] => true
  | x :: a', y :: b' => str_eqb x y && path_eqb a' b'
  | _, _ => false
  end.

(** [x in s]. *)
Definition is_in (x : str) (s : list str) : bool := existsb (str_eqb x) s.

(** [os.walk(top, topdown=True)] under a loop that replaces [dirs] in
    place by the names that satisfy [keep] before the walk goes on: the
    triples the loop sees, without the names of the sub-directories. *)
Fixpoint walk (keep : str -> bool) (root : path) (d : Dir)
  : list (path * list (str * option Z)) :=
  match d with
  | mkDir files subdirs =>
      (root, files)
        :: flat_map (fun entry =>
                       match entry with
                       | (name, sub) =>
                           if keep name then walk keep (root ++ [name]) sub else []
                       end) subdirs
  end.

Definition DEFAULT_EXCLUDE : list str :=
  [lit ".git"; lit "node_modules"; lit "venv"; lit ".venv"; lit "__pycache__"].

(** [exclude or [...]]: [None] and the empty list give the default. *)
Definition exclude_or_default (exclude : option (list str)) : list str :=
  match exclude with
  | None | Some [] => DEFAULT_EXCLUDE
  | Some names => names
  end.

(** [try: total += os.path.getsize(...)  except OSError: continue]. *)
Definition add_file_size (total : Z) (f : str * option Z) : Z :=
  match snd f with
  | Some size => (total + size)%Z
  | None => total
  end.

(** [_get_dir_size_bytes(path, exclude)] of [app.py]. *)
Definition _get_dir_size_bytes (top : Dir) (exclude : option (list str)) : Z :=
  let exclude := exclude_or_default exclude in
  fold_left (fun total step => fold_left add_file_size (snd step) total)
            (walk (fun d => negb (is_in d exclude)) [] top) 0%Z.

(** [d[key] += v] on a [defaultdict(int)]. *)
Fixpoint dict_add (d : list (path * Z)) (key : path) (v : Z) : list (path * Z) :=
  match d with
  | [] => [(key, v)]
  | (k, x) :: rest =>
      if path_eqb k key then (k, (x + v)%Z) :: rest else (k, x) :: dict_add rest key v
  end.

(** [get_sizes(base_path, exclude)] of [scripts/check_function_size.py]. *)
Definition get_sizes (base_path : Dir) (exclude : list str) : Z * list (path * Z) :=
  fold_left
    (fun state step =>
       fold_left (fun state f =>
                    match snd f with
                    | Some size => ((fst state + size)%Z, dict_add (snd state) (fst step) size)
                    | None => state
                    end) (snd step) state)
    (walk (fun d => negb (is_in d exclude)) [] base_path) (0%Z, []).

(** The sizes of the files that can be read. *)
Definition readable_sizes (files : list (str * option Z)) : list Z :=
  flat_map (fun f => match snd f with Some size => [size] | None => [] end) files.

Definition Zsum (l : list Z) : Z := fold_right Z.add 0%Z l.

(* ================================================================== *)
(** ** Further concrete values *)
(* ================================================================== *)

Module Samples.

(** An annotator that raises on every text. *)
Definition raising_nlp : Language :=
  mkLanguage (fun _ => Raise (mkExn ValueError (lit "[E088] Text exceeds maximum length"))).

Definition world_with (nlp : Language) : World := mkWorld (Some nlp) 1 [].

(** A pipeline that answers with empty arrays. *)
Definition empty_pipeline : Pipeline :=
  mkPipeline (fun _ => Ok []) (fun _ => Ok []).

(** A pipeline whose probabilities are not numbers. *)
Definition nan_pipeline : Pipeline :=
  mkPipeline (fun xs => Ok (map (fun _ => lit "High") xs))
             (fun xs => Ok (map (fun _ => [NaN; NaN; NaN; NaN]) xs)).

(** A project with a source file, a file that cannot be read, a
    virtual environment and a package with a cache. *)
Definition project : Dir :=
  mkDir [(lit "app.py", Some 3000%Z); (lit "broken", None)]
        [(lit "venv", mkDir [(lit "python", Some 5000000%Z)] []);
         (lit "static", mkDir [(lit "style.css", Some 700%Z)]
                          [(lit "__pycache__", mkDir [(lit "x.pyc", Some 90%Z)] [])])].

(** A classifier that answers "High" with four unequal probabilities. *)
Definition skewed_pipeline : Pipeline :=
  mkPipeline (fun xs => Ok (map (fun _ => lit "High") xs))
             (fun xs => Ok (map (fun _ => map Finite [1#10; 1#2; 3#10; 1#10]) xs)).

Definition skewed_fit (X y : list str) : result Pipeline := Ok skewed_pipeline.

Definition skewed : result TriageAI * World :=
  TriageAI_init Fixture.ascii_ucd true Fixture.spacy_missing skewed_fit initial_world.

Definition skewed_ai : TriageAI := mkTriageAI (Some skewed_pipeline) f0_6.

(** ASCII digits only. *)
Definition ascii_digits : codepoint -> bool := fun _ => false.

Definition today : date := mkDate 2024 3 15.
Definition born : date := mkDate 1990 7 4.

End Samples.

(* ================================================================== *)
(** ** Strings and floats *)
(* ================================================================== *)

Lemma str_eqb_eq (a b : str) : str_eqb a b = true <-> a = b.
Proof.
  revert b; induction a as [|x a IH]; intros [|y b]; simpl;
    try (split; [discriminate | congruence ]); [tauto|].
  rewrite andb_true_iff, N.eqb_eq, IH.
  split; [intros [-> ->]; reflexivity | intros H; injection H; auto].
Qed.

Lemma str_eqb_refl (a : str) : str_eqb a a = true.
Proof. apply str_eqb_eq; reflexivity. Qed.

Lemma startswith_spec (s p : str) :
  startswith s p = true <-> exists rest, s = p ++ rest.
Proof.
  revert s; induction p as [|x p IH]; intros s; simpl.
  - split; [intros _; exists s; reflexivity | reflexivity].
  - destruct s as [|y s].
    + split; [discriminate | intros [rest H]; discriminate H].
    + rewrite andb_true_iff, N.eqb_eq, IH. split.
      * intros [-> [rest ->]]. exists rest; reflexivity.
      * intros [rest H]. injection H as -> ->. split; [reflexivity | eauto].
Qed.

(** [contains] decides the occurrence of [p] as a substring of [s]. *)
Lemma contains_spec (s p : str) :
  contains s p = true <-> exists before after, s = before ++ p ++ after.
Proof.
  induction s as [|c s IH].
  - simpl. rewrite orb_false_r, startswith_spec. split.
    + intros [rest H]. exists [], rest. exact H.
    + intros [[|b before] [after H]]; [exists after; exact H | discriminate H].
  - cbn [contains]. rewrite orb_true_iff, startswith_spec, IH. split.
    + intros [[rest H] | [before [after H]]].
      * exists [], rest. exact H.
      * exists (c :: before), after. rewrite H. reflexivity.
    + intros [[|b before] [after H]].
      * left. exists after. exact H.
      * right. injection H as _ H. exists before, after. exact H.
Qed.

Lemma contains_suffix (a p : str) : contains (a ++ p) p = true.
Proof. apply contains_spec. exists a, []. rewrite app_nil_r. reflexivity. Qed.

Lemma flt_Finite (x y : Q) : flt (Finite x) (Finite y) = true <-> x < y.
Proof.
  simpl. destruct (Qlt_le_dec x y) as [H|H]; split; auto; try discriminate.
  intros H'. exfalso. exact (Qle_not_lt _ _ H H').
Qed.

Lemma fle_Finite (x y : Q) : fle (Finite x) (Finite y) = true <-> x <= y.
Proof.
  simpl. destruct (Qlt_le_dec y x) as [H|H]; split; auto; try discriminate.
  intros H'. exfalso. exact (Qle_not_lt _ _ H' H).
Qed.

Lemma in_unit_interval_Finite (p : float) :
  in_unit_interval p = true <-> exists q, p = Finite q /\ 0 <= q <= 1.
Proof.
  unfold in_unit_interval, f0, f1. split.
  - destruct p as [q| |]; simpl; try discriminate.
    + intros H. apply andb_true_iff in H. destruct H as [H0 H1].
      exists q. split; [reflexivity|].
      split; [apply (fle_Finite 0 q) | apply (fle_Finite q 1)]; assumption.
    + destruct negative; discriminate.
  - intros [q [-> [H0 H1]]]. apply andb_true_iff.
    split; apply fle_Finite; assumption.
Qed.

(** [t <= c] excludes [c < t], also at the infinities and at NaN. *)
Lemma fle_not_flt (t c : float) : fle t c = true -> flt c t = false.
Proof.
  destruct t as [t|nt|], c as [c|nc|]; simpl; try reflexivity; try discriminate.
  - destruct (Qlt_le_dec c t) as [Hlt|Hle]; [discriminate | reflexivity].
  - destruct nc; [discriminate | reflexivity].
  - destruct nt; [reflexivity | discriminate].
  - destruct nt, nc; simpl; try reflexivity; discriminate.
Qed.

(* ================================================================== *)
(** ** Construction of the orchestrator *)
(* ================================================================== *)

Section Construction.
Variable ucd : UnicodeDB.
Variable ML_AVAILABLE : bool.
Variable spacy_load : nat -> result Language.
Variable sk_fit : list str -> list str -> result Pipeline.

(** [TriageAI()] always returns an instance.  Its threshold is 0.6; it
    holds a model only if the libraries were imported, and that model
    is then a pipeline fitted on the labels of the corpus. *)
Lemma TriageAI_init_cases (w : World) :
  exists triage_ai w',
    TriageAI_init ucd ML_AVAILABLE spacy_load sk_fit w = (Ok triage_ai, w')
    /\ confidence_threshold triage_ai = f0_6
    /\ (forall m, model triage_ai = Some m ->
          ML_AVAILABLE = true
          /\ exists X, sk_fit X (map snd ALL_TRAINING_DATA) = Ok m).
Proof.
  unfold TriageAI_init, initialize_model.
  destruct ML_AVAILABLE; cbn [negb].
  - unfold try_except. unfold bind at 1.
    match goal with
    | |- context [mapM ?f ?l w] => destruct (mapM f l w) as [[pre|e] w1]
    end.
    + unfold bind at 1, lift.
      match goal with
      | |- context [sk_fit pre ?y] => destruct (sk_fit pre y) as [m|e] eqn:Hfit
      end.
      * eexists _, _. split; [reflexivity|]. split; [reflexivity|].
        cbn [model set_model]. intros m' H. injection H as <-.
        split; [reflexivity|]. exists pre. exact Hfit.
      * eexists _, _. split; [reflexivity|]. split; [reflexivity|].
        cbn [model set_model]. discriminate.
    + eexists _, _. split; [reflexivity|]. split; [reflexivity|].
      cbn [model set_model]. discriminate.
  - eexists _, _. split; [reflexivity|]. split; [reflexivity|].
    cbn [model]. discriminate.
Qed.
End Construction.

(* ================================================================== *)
(** ** The recommendation generator *)
(* ================================================================== *)

(** The base text is one of the four paragraphs of the table or the
    generic one. *)
Lemma base_recommendation_cases (severity : str) :
  In (dict_get recommendations severity default_recommendation)
     (default_recommendation :: map snd recommendations).
Proof.
  unfold recommendations. cbn [dict_get map snd].
  repeat match goal with
         | |- context [if ?b then _ else _] => destruct b
         end; simpl; tauto.
Qed.

Lemma base_recommendation_no_disclaimer (base : str) :
  In base (default_recommendation :: map snd recommendations) ->
  contains base disclaimer = false.
Proof.
  intros H. simpl in H.
  repeat (destruct H as [<- | H]; [vm_compute; reflexivity|]).
  contradiction.
Qed.

(** C3.  For every severity label and every confidence, the text returned
    by [generate_recommendation] contains the disclaimer exactly when the
    confidence is strictly below the threshold of the instance, and does
    not contain it when the confidence is at least the threshold; the
    threshold of an instance built by [TriageAI()] is the literal 0.6. *)
Theorem disclaimer_gating :
  (forall self severity confidence symptoms,
      contains (generate_recommendation self severity confidence symptoms) disclaimer = true
      <-> flt confidence (confidence_threshold self) = true)
  /\ (forall self severity confidence symptoms,
         fle (confidence_threshold self) confidence = true ->
         contains (generate_recommendation self severity confidence symptoms) disclaimer = false)
  /\ (forall ucd ML_AVAILABLE spacy_load sk_fit w,
         exists triage_ai w',
           TriageAI_init ucd ML_AVAILABLE spacy_load sk_fit w = (Ok triage_ai, w')
           /\ confidence_threshold triage_ai = f0_6).
Proof.
  assert (gate : forall self severity confidence symptoms,
             contains (generate_recommendation self severity confidence symptoms) disclaimer
             = flt confidence (confidence_threshold self)).
  { intros self severity confidence symptoms. unfold generate_recommendation.
    destruct (flt confidence (confidence_threshold self)).
    - apply contains_suffix.
    - apply base_recommendation_no_disclaimer, base_recommendation_cases. }
  split; [|split].
  - intros. rewrite gate. tauto.
  - intros self severity confidence symptoms H. rewrite gate.
    apply fle_not_flt, H.
  - intros ucd ML_AVAILABLE spacy_load sk_fit w.
    destruct (TriageAI_init_cases ucd ML_AVAILABLE spacy_load sk_fit w)
      as [ai [w' [H [Ht _]]]].
    exists ai, w'. split; assumption.
Qed.

Lemma disclaimer_gating_witness :
  flt (Finite (1#4)) (confidence_threshold (mkTriageAI None f0_6)) = true
  /\ contains (generate_recommendation (mkTriageAI None f0_6) (lit "Low")
                 (Finite (1#4)) (lit "Slight cough for one day")) disclaimer = true
  /\ fle (confidence_threshold (mkTriageAI None f0_6)) (Finite (9#10)) = true
  /\ contains (generate_recommendation (mkTriageAI None f0_6) (lit "Low")
                 (Finite (9#10)) (lit "Slight cough for one day")) disclaimer = false.
Proof.
  split; [reflexivity|]. split.
  - apply (proj1 disclaimer_gating). reflexivity.
  - split; [reflexivity|]. apply (proj1 (proj2 disclaimer_gating)). reflexivity.
Defined.

(** C9.  The recommendation depends on the severity and the confidence
    only: two calls that differ in the symptoms text alone return the
    same text. *)
Theorem recommendation_ignores_symptoms :
  forall self severity confidence s1 s2,
    generate_recommendation self severity confidence s1
    = generate_recommendation self severity confidence s2.
Proof. intros. unfold generate_recommendation. reflexivity. Qed.

(* ================================================================== *)
(** ** The failure paths of the assessment *)
(* ================================================================== *)

Section FailurePaths.
Variable ucd : UnicodeDB.
Variable ML_AVAILABLE : bool.
Variable spacy_load : nat -> result Language.
Variable sk_fit : list str -> list str -> result Pipeline.

Local Abbreviation assess := (assess_symptoms ucd ML_AVAILABLE spacy_load).
Local Abbreviation body := (assess_body ucd ML_AVAILABLE spacy_load).
Local Abbreviation init := (TriageAI_init ucd ML_AVAILABLE spacy_load sk_fit).

(** Without a model the answer is fixed and the world is left alone. *)
Lemma assess_symptoms_no_model (self : TriageAI) (text : str) (w : World) :
  model self = None ->
  assess self text w = (Ok no_model_assessment, w).
Proof.
  intros H. unfold assess_symptoms. rewrite H. reflexivity.
Qed.

(** With a model, the outcome of the body of the [try] decides. *)
Lemma assess_symptoms_body_ok (self : TriageAI) m (text : str) (w w1 : World) r :
  model self = Some m ->
  body self m text w = (Ok r, w1) ->
  assess self text w = (Ok r, w1).
Proof.
  intros Hm Hb. unfold assess_symptoms.
  rewrite Hm. unfold try_except. rewrite Hb. reflexivity.
Qed.

Lemma assess_symptoms_body_raise (self : TriageAI) m (text : str) (w w1 : World) e :
  model self = Some m ->
  body self m text w = (Raise e, w1) ->
  assess self text w
  = (Ok inference_error_assessment,
     mkWorld (_nlp w1) (spacy_attempts w1)
       (log w1 ++ [(ERROR, lit "Error in symptom assessment: " ++ exc_str e)])).
Proof.
  intros Hm Hb. unfold assess_symptoms.
  rewrite Hm. unfold try_except. rewrite Hb. reflexivity.
Qed.

(** C2.  An orchestrator that holds no model answers every input with
    severity "Unknown", confidence 0.0 and the fixed error text, and
    this is the orchestrator [TriageAI()] builds when the statistical
    libraries are missing or when the fit raises. *)
Theorem degraded_fallback :
  (forall self text w,
      model self = None ->
      assess self text w
      = (Ok (mkAssessment
               (lit "Unknown")
               (lit "Error in AI model. Please consult with a healthcare professional directly.")
               (Finite 0)), w))
  /\ (forall w0,
        ML_AVAILABLE = false \/ (forall X y, is_ok (sk_fit X y) = false) ->
        exists triage_ai w1,
          init w0 = (Ok triage_ai, w1) /\ model triage_ai = None).
Proof.
  split.
  - intros self text w H. apply assess_symptoms_no_model, H.
  - intros w0 H.
    destruct (TriageAI_init_cases ucd ML_AVAILABLE spacy_load sk_fit w0)
      as [ai [w1 [Hinit [_ Hmodel]]]].
    exists ai, w1. split; [exact Hinit|].
    destruct (model ai) as [m|] eqn:Hm; [exfalso | reflexivity].
    destruct (Hmodel m eq_refl) as [Hml [X Hfit]].
    destruct H as [H|H].
    + congruence.
    + specialize (H X (map snd ALL_TRAINING_DATA)). rewrite Hfit in H. discriminate.
Qed.

(** C10.  The two failure paths answer with different fixed texts: the
    one without a model with "Error in AI model. ...", the one whose
    inference raised with "An error occurred during assessment. ...";
    both with severity "Unknown" and confidence 0.0. *)
Theorem failure_paths_differ :
  (forall self text w,
      model self = None ->
      value_of (assess self text w)
      = Ok (mkAssessment
              (lit "Unknown")
              (lit "Error in AI model. Please consult with a healthcare professional directly.")
              (Finite 0)))
  /\ (forall self m text w e w1,
        model self = Some m ->
        body self m text w = (Raise e, w1) ->
        value_of (assess self text w)
        = Ok (mkAssessment
                (lit "Unknown")
                (lit "An error occurred during assessment. Please consult with a healthcare professional.")
                (Finite 0)))
  /\ lit "Error in AI model. Please consult with a healthcare professional directly."
     <> lit "An error occurred during assessment. Please consult with a healthcare professional.".
Proof.
  split; [|split].
  - intros self text w H. rewrite (assess_symptoms_no_model self text w H). reflexivity.
  - intros self m text w e w1 Hm Hb.
    rewrite (assess_symptoms_body_raise self m text w w1 e Hm Hb). reflexivity.
  - discriminate.
Qed.
End FailurePaths.

Lemma degraded_fallback_witness :
  model (mkTriageAI None f0_6) = None
  /\ assess_symptoms Fixture.ascii_ucd false Fixture.spacy_missing
       (mkTriageAI None f0_6) (lit "anything") initial_world
     = (Ok (mkAssessment
              (lit "Unknown")
              (lit "Error in AI model. Please consult with a healthcare professional directly.")
              (Finite 0)), initial_world)
  /\ exists triage_ai w1,
       TriageAI_init Fixture.ascii_ucd false Fixture.spacy_missing Fixture.memo_fit initial_world
       = (Ok triage_ai, w1) /\ model triage_ai = None.
Proof.
  split; [reflexivity|]. split.
  - apply (proj1 (degraded_fallback Fixture.ascii_ucd false Fixture.spacy_missing
                    Fixture.memo_fit)).
    reflexivity.
  - apply (proj2 (degraded_fallback Fixture.ascii_ucd false Fixture.spacy_missing
                    Fixture.memo_fit)).
    left. reflexivity.
Defined.

Lemma failure_paths_differ_witness :
  value_of (assess_symptoms Fixture.ascii_ucd true Fixture.spacy_missing
              (mkTriageAI (Some Fixture.failing_pipeline) f0_6)
              (lit "Chest pain") initial_world)
  = Ok (mkAssessment
          (lit "Unknown")
          (lit "An error occurred during assessment. Please consult with a healthcare professional.")
          (Finite 0))
  /\ value_of (assess_symptoms Fixture.ascii_ucd true Fixture.spacy_missing
                 (mkTriageAI None f0_6) (lit "Chest pain") initial_world)
     = Ok (mkAssessment
             (lit "Unknown")
             (lit "Error in AI model. Please consult with a healthcare professional directly.")
             (Finite 0)).
Proof.
  split.
  - eapply (proj1 (proj2 (failure_paths_differ Fixture.ascii_ucd true Fixture.spacy_missing))).
    + reflexivity.
    + vm_compute. reflexivity.
  - apply (proj1 (failure_paths_differ Fixture.ascii_ucd true Fixture.spacy_missing)).
    reflexivity.
Defined.

(* ================================================================== *)
(** ** The lazily loaded annotator *)
(* ================================================================== *)

Section Annotator.
Variable spacy_load : nat -> result Language.

Local Abbreviation get := (get_nlp_model spacy_load).
Local Abbreviation calls := (get_nlp_model_calls spacy_load).
Local Abbreviation loads := (successful_loads spacy_load).

(** A cached annotator is handed out as it is: no attempt, no log
    record, no change of the world. *)
Lemma get_nlp_model_cached (w : World) (m : Language) :
  _nlp w = Some m -> get w = (Ok (Some m), w).
Proof.
  intros H. destruct w as [c n l]. cbn [_nlp] in H. subst c. reflexivity.
Qed.

Lemma get_nlp_model_load_ok (w : World) (m : Language) :
  _nlp w = None ->
  spacy_load (spacy_attempts w) = Ok m ->
  get w = (Ok (Some m),
           mkWorld (Some m) (S (spacy_attempts w))
             (log w ++ [(INFO, lit "spaCy model loaded successfully")])).
Proof.
  intros H L. destruct w as [c n l]. cbn [_nlp spacy_attempts log] in *. subst c.
  unfold get_nlp_model, bind, read_nlp, try_except, import_spacy_and_load,
    write_nlp, logger, ret.
  cbn [_nlp spacy_attempts log]. rewrite L. reflexivity.
Qed.

Lemma get_nlp_model_load_fail (w : World) (e : exn) :
  _nlp w = None ->
  spacy_load (spacy_attempts w) = Raise e ->
  get w = (Ok None,
           mkWorld None (S (spacy_attempts w))
             (log w ++ [(WARNING, load_failure_warning e)])).
Proof.
  intros H L. destruct w as [c n l]. cbn [_nlp spacy_attempts log] in *. subst c.
  unfold get_nlp_model, bind, read_nlp, try_except, import_spacy_and_load,
    write_nlp, logger, ret, load_failure_warning.
  cbn [_nlp spacy_attempts log]. rewrite L.
  destruct (is_OSError e); reflexivity.
Qed.

(** The three cases above are all there is. *)
Lemma get_nlp_model_cases (w : World) :
  (exists m, _nlp w = Some m /\ get w = (Ok (Some m), w))
  \/ (exists m, _nlp w = None /\ spacy_load (spacy_attempts w) = Ok m
                /\ get w = (Ok (Some m),
                            mkWorld (Some m) (S (spacy_attempts w))
                              (log w ++ [(INFO, lit "spaCy model loaded successfully")])))
  \/ (exists e, _nlp w = None /\ spacy_load (spacy_attempts w) = Raise e
                /\ get w = (Ok None,
                            mkWorld None (S (spacy_attempts w))
                              (log w ++ [(WARNING, load_failure_warning e)]))).
Proof.
  destruct (_nlp w) as [m|] eqn:H.
  - left. exists m. split; [reflexivity | apply get_nlp_model_cached, H].
  - right. destruct (spacy_load (spacy_attempts w)) as [m|e] eqn:L.
    + left. exists m. repeat split; try assumption. apply get_nlp_model_load_ok; assumption.
    + right. exists e. repeat split; try assumption. apply get_nlp_model_load_fail; assumption.
Qed.

Lemma get_nlp_model_never_raises (w : World) : is_ok (fst (get w)) = true.
Proof.
  destruct (get_nlp_model_cases w) as [[m [_ E]] | [[m [_ [_ E]]] | [e [_ [_ E]]]]];
    rewrite E; reflexivity.
Qed.

(** What a call returns is what it leaves in the cache. *)
Lemma get_nlp_model_returns_cache (w : World) :
  fst (get w) = Ok (_nlp (snd (get w))).
Proof.
  destruct (get_nlp_model_cases w) as [[m [H E]] | [[m [_ [_ E]]] | [e [_ [_ E]]]]];
    rewrite E; simpl; congruence.
Qed.

Lemma successful_loads_step (c1 c2 : option Language) (n : nat) l1 l2 :
  loads (mkWorld c1 (S n) l1)
  = (loads (mkWorld c2 n l2) + (if is_ok (spacy_load n) then 1 else 0))%nat.
Proof.
  unfold successful_loads. cbn [spacy_attempts].
  rewrite seq_S, filter_app, length_app. cbn [filter Nat.add].
  destruct (is_ok (spacy_load n)); reflexivity.
Qed.

Lemma get_nlp_model_consistent (w : World) :
  cache_consistent spacy_load w -> cache_consistent spacy_load (snd (get w)).
Proof.
  intros C.
  destruct (get_nlp_model_cases w) as [[m [H E]] | [[m [H [L E]]] | [e [H [L E]]]]];
    rewrite E; cbn [snd]; [exact C | |];
    unfold cache_consistent in *; rewrite H in C; cbn [_nlp];
    rewrite (successful_loads_step _ (_nlp w) _ _ (log w)), L; cbn [is_ok];
    destruct w as [c n l]; cbn [_nlp spacy_attempts log] in *; rewrite C; reflexivity.
Qed.

Lemma calls_consistent (n : nat) (w : World) :
  cache_consistent spacy_load w -> cache_consistent spacy_load (snd (calls n w)).
Proof.
  revert w; induction n as [|n IH]; intros w C; [exact C|].
  cbn [get_nlp_model_calls].
  pose proof (get_nlp_model_consistent w C) as C1.
  destruct (get w) as [r w1]. cbn [snd] in C1.
  specialize (IH w1 C1). destruct (calls n w1) as [rs w2]. exact IH.
Qed.

Lemma calls_never_raise (n : nat) (w : World) :
  Forall (fun r => is_ok r = true) (fst (calls n w)).
Proof.
  revert w; induction n as [|n IH]; intros w; [constructor|].
  cbn [get_nlp_model_calls].
  pose proof (get_nlp_model_never_raises w) as R.
  destruct (get w) as [r w1]. specialize (IH w1).
  destruct (calls n w1) as [rs w2]. constructor; assumption.
Qed.

(** Once the cache is filled every later call returns its content. *)
Lemma calls_cached (n : nat) (w : World) (m : Language) (j : nat) :
  _nlp w = Some m -> (j < n)%nat ->
  nth_error (fst (calls n w)) j = Some (Ok (Some m)).
Proof.
  revert w j; induction n as [|n IH]; intros w j H Hj; [lia|].
  cbn [get_nlp_model_calls]. rewrite (get_nlp_model_cached w m H).
  specialize (IH w). destruct (calls n w) as [rs w2].
  destruct j as [|j]; [reflexivity|]. apply IH; [exact H | lia].
Qed.

Lemma calls_stay_loaded (n : nat) (w : World) (m : Language) (i j : nat) :
  (i <= j)%nat -> (j < n)%nat ->
  nth_error (fst (calls n w)) i = Some (Ok (Some m)) ->
  nth_error (fst (calls n w)) j = Some (Ok (Some m)).
Proof.
  revert w i j; induction n as [|n IH]; intros w i j Hij Hj; [lia|].
  cbn [get_nlp_model_calls].
  pose proof (get_nlp_model_returns_cache w) as R.
  destruct (get w) as [r w1]. cbn [fst snd] in R.
  pose proof (IH w1) as IH1. pose proof (calls_cached n w1 m) as Hc.
  destruct (calls n w1) as [rs w2]. cbn [fst] in *.
  destruct i as [|i], j as [|j]; cbn [nth_error]; try lia; auto.
  - intros E. injection E as E. rewrite R in E. injection E as E.
    apply Hc; [exact E | lia].
  - apply IH1; lia.
Qed.

Lemma calls_app (a b : nat) (w : World) :
  calls (a + b) w
  = (fst (calls a w) ++ fst (calls b (snd (calls a w))),
     snd (calls b (snd (calls a w)))).
Proof.
  revert w; induction a as [|a IH]; intros w.
  - cbn [Nat.add get_nlp_model_calls fst snd app]. destruct (calls b w); reflexivity.
  - cbn [Nat.add get_nlp_model_calls]. destruct (get w) as [r w1]. rewrite IH.
    destruct (calls a w1) as [rs w2]. cbn [fst snd].
    destruct (calls b w2) as [rs' w3]. reflexivity.
Qed.

(** With the cache filled the calls return its content and leave the
    world as it is. *)
Lemma calls_cached_run (n : nat) (w : World) (m : Language) :
  _nlp w = Some m -> calls n w = (repeat (Ok (Some m)) n, w).
Proof.
  intros H. induction n as [|n IH]; [reflexivity|].
  cbn [get_nlp_model_calls repeat]. rewrite (get_nlp_model_cached w m H), IH. reflexivity.
Qed.

(** As long as the loads fail every call tries again. *)
Lemma calls_failing (n : nat) (w : World) :
  _nlp w = None ->
  (forall i, (spacy_attempts w <= i < spacy_attempts w + n)%nat ->
             is_ok (spacy_load i) = false) ->
  exists records,
    calls n w = (repeat (Ok None) n,
                 mkWorld None (spacy_attempts w + n) (log w ++ records)).
Proof.
  revert w; induction n as [|n IH]; intros w H U.
  - exists []. destruct w as [c k l]. cbn in *. subst c.
    rewrite Nat.add_0_r, app_nil_r. reflexivity.
  - cbn [get_nlp_model_calls repeat].
    destruct (spacy_load (spacy_attempts w)) as [m|e] eqn:L.
    { specialize (U (spacy_attempts w)). rewrite L in U. cbn in U.
      assert (true = false) by (apply U; lia). discriminate. }
    rewrite (get_nlp_model_load_fail w e H L).
    destruct (IH (mkWorld None (S (spacy_attempts w))
                    (log w ++ [(WARNING, load_failure_warning e)])))
      as [records E].
    + reflexivity.
    + intros i Hi. apply U. cbn [spacy_attempts] in Hi. lia.
    + rewrite E. cbn [spacy_attempts log].
      exists ((WARNING, load_failure_warning e) :: records).
      rewrite <- app_assoc. cbn [app].
      replace (S (spacy_attempts w) + n)%nat with (spacy_attempts w + S n)%nat by lia.
      reflexivity.
Qed.

(** The first load that succeeds is the only attempt that is not a
    failure and the last attempt made: the calls before it return
    [None], that call and all the later ones return what it loaded. *)
Lemma calls_first_success (n k : nat) (m : Language) (w : World) :
  _nlp w = None ->
  (k < n)%nat ->
  spacy_load (spacy_attempts w + k) = Ok m ->
  (forall i, (spacy_attempts w <= i < spacy_attempts w + k)%nat ->
             is_ok (spacy_load i) = false) ->
  exists records,
    calls n w
    = (repeat (Ok None) k ++ repeat (Ok (Some m)) (n - k),
       mkWorld (Some m) (spacy_attempts w + S k) (log w ++ records)).
Proof.
  intros H Hk L U.
  pose proof (calls_app k (S (n - S k)) w) as A.
  replace (k + S (n - S k))%nat with n in A by lia. rewrite A. clear A.
  destruct (calls_failing k w H U) as [records E]. rewrite E. cbn [fst snd].
  cbn [get_nlp_model_calls].
  rewrite (get_nlp_model_load_ok (mkWorld None (spacy_attempts w + k) (log w ++ records)) m);
    [|reflexivity | exact L].
  cbn [spacy_attempts log].
  rewrite (calls_cached_run (n - S k) _ m); [|reflexivity].
  cbn [fst snd].
  exists (records ++ [(INFO, lit "spaCy model loaded successfully")]).
  replace (n - k)%nat with (S (n - S k)) by lia. cbn [repeat].
  rewrite <- app_assoc, Nat.add_succ_r. reflexivity.
Qed.
End Annotator.

(** C8.  In any number of successive calls of [get_nlp_model] from the
    start of the process the annotator is loaded at most once; no call
    raises; once a call has returned the annotator every later call
    returns the same one, and a call that finds it cached neither tries
    to load nor logs.  A load that succeeds fills the cache: in a run of
    [n] calls whose [k]-th attempt is the first to succeed, the calls
    before it return [None], that call and all the later ones return the
    annotator it loaded, and no further attempt is made, [k + 1] in all.
    A load that fails is logged as a warning and answered with [None],
    and [preprocess_text] then takes the regex path; if none of the
    attempts succeeds the cache stays empty. *)
Theorem annotator_loaded_at_most_once :
  forall (spacy_load : nat -> result Language) (n : nat),
    let run := get_nlp_model_calls spacy_load n initial_world in
    (successful_loads spacy_load (snd run) <= 1)%nat
    /\ Forall (fun r => is_ok r = true) (fst run)
    /\ (forall i j m,
           (i <= j)%nat -> (j < n)%nat ->
           nth_error (fst run) i = Some (Ok (Some m)) ->
           nth_error (fst run) j = Some (Ok (Some m)))
    /\ (forall w m,
           _nlp w = Some m -> get_nlp_model spacy_load w = (Ok (Some m), w))
    /\ (forall w e,
           _nlp w = None ->
           spacy_load (spacy_attempts w) = Raise e ->
           get_nlp_model spacy_load w
           = (Ok None,
              mkWorld None (S (spacy_attempts w))
                (log w ++ [(WARNING, load_failure_warning e)]))
           /\ forall ucd text,
               value_of (preprocess_text ucd spacy_load text w)
               = Ok (re_sub_class (not_word_not_space ucd) [] (lower ucd text)))
    /\ (forall w m,
           _nlp w = None ->
           spacy_load (spacy_attempts w) = Ok m ->
           get_nlp_model spacy_load w
           = (Ok (Some m),
              mkWorld (Some m) (S (spacy_attempts w))
                (log w ++ [(INFO, lit "spaCy model loaded successfully")])))
    /\ (forall k m,
           (k < n)%nat ->
           spacy_load k = Ok m ->
           (forall i, (i < k)%nat -> is_ok (spacy_load i) = false) ->
           fst run = repeat (Ok None) k ++ repeat (Ok (Some m)) (n - k)
           /\ _nlp (snd run) = Some m
           /\ spacy_attempts (snd run) = S k
           /\ successful_loads spacy_load (snd run) = 1%nat)
    /\ ((forall i, (i < n)%nat -> is_ok (spacy_load i) = false) ->
        fst run = repeat (Ok None) n
        /\ _nlp (snd run) = None
        /\ spacy_attempts (snd run) = n
        /\ successful_loads spacy_load (snd run) = 0%nat).
Proof.
  intros spacy_load n run. subst run.
  assert (Cn : cache_consistent spacy_load
                 (snd (get_nlp_model_calls spacy_load n initial_world))).
  { apply calls_consistent. reflexivity. }
  split; [|split; [|split; [|split; [|split; [|split; [|split]]]]]];
    [| | | | |
     intros w m H L; apply get_nlp_model_load_ok; assumption
     | intros k m Hk L U;
       destruct (calls_first_success spacy_load n k m initial_world eq_refl Hk L)
         as [records E];
       [ intros i Hi; apply U; cbn [initial_world spacy_attempts] in Hi; lia
       | rewrite E in *; cbn [fst snd _nlp spacy_attempts initial_world Nat.add] in *;
         repeat split; exact Cn ]
     | intros U;
       destruct (calls_failing spacy_load n initial_world eq_refl) as [records E];
       [ intros i Hi; apply U; cbn [initial_world spacy_attempts] in Hi; lia
       | rewrite E in *; cbn [fst snd _nlp spacy_attempts initial_world Nat.add] in *;
         repeat split; exact Cn ] ].
  - assert (C : cache_consistent spacy_load initial_world) by reflexivity.
    apply (calls_consistent spacy_load n) in C.
    unfold cache_consistent in C.
    destruct (_nlp (snd (get_nlp_model_calls spacy_load n initial_world)));
      rewrite C; lia.
  - apply calls_never_raise.
  - intros i j m. apply calls_stay_loaded.
  - intros w m. apply get_nlp_model_cached.
  - intros w e H L. split.
    + apply get_nlp_model_load_fail; assumption.
    + intros ucd text. unfold preprocess_text, bind, value_of.
      rewrite (get_nlp_model_load_fail spacy_load w e H L). reflexivity.
Qed.

Lemma annotator_loaded_at_most_once_witness :
  let run := get_nlp_model_calls Fixture.spacy_flaky 5 initial_world in
  (successful_loads Fixture.spacy_flaky (snd run) <= 1)%nat
  /\ nth_error (fst run) 4 = Some (Ok (Some Fixture.stopword_nlp))
  /\ value_of (preprocess_text Fixture.ascii_ucd Fixture.spacy_flaky
                 (lit "I HAVE a Headache!!") initial_world)
     = Ok (lit "i have a headache")
  /\ fst run = [Ok None; Ok None; Ok (Some Fixture.stopword_nlp);
                Ok (Some Fixture.stopword_nlp); Ok (Some Fixture.stopword_nlp)]
  /\ _nlp (snd run) = Some Fixture.stopword_nlp
  /\ spacy_attempts (snd run) = 3%nat.
Proof.
  pose proof (annotator_loaded_at_most_once Fixture.spacy_flaky 5) as T.
  cbv zeta in T. destruct T as [T1 [_ [T3 [_ [T5 [_ [T7 _]]]]]]].
  split; [exact T1|]. split; [|split].
  - apply (T3 2%nat 4%nat); [lia | lia | reflexivity].
  - destruct (T5 initial_world (mkExn ImportError (lit "No module named 'spacy'"))
                eq_refl eq_refl) as [_ T].
    rewrite (T Fixture.ascii_ucd (lit "I HAVE a Headache!!")). reflexivity.
  - destruct (T7 2%nat Fixture.stopword_nlp) as [R1 [R2 [R3 _]]].
    + lia.
    + reflexivity.
    + intros [|[|i]] Hi; [reflexivity | reflexivity | lia].
    + split; [exact R1|]. split; [exact R2 | exact R3].
Defined.

(* ================================================================== *)
(** ** The normaliser *)
(* ================================================================== *)

Section Normaliser.
Variable ucd : UnicodeDB.
Variable spacy_load : nat -> result Language.

(** [preprocess_text] is [get_nlp_model] followed by a function of its
    answer and of the text. *)
Lemma preprocess_text_decompose (text : str) (w : World) :
  preprocess_text ucd spacy_load text w
  = (match fst (get_nlp_model spacy_load w) with
     | Ok nlp => normalize_with ucd nlp text
     | Raise e => Raise e
     end,
     snd (get_nlp_model spacy_load w)).
Proof.
  unfold preprocess_text, bind.
  destruct (get_nlp_model spacy_load w) as [[[nlp|]|e] w1]; cbn [fst snd];
    unfold normalize_with, lift, ret; try reflexivity.
  destruct (call nlp (lower ucd text)); reflexivity.
Qed.

(** Replacing the characters of a class by nothing keeps the others. *)
Lemma re_sub_class_delete (cls : codepoint -> bool) (s : str) :
  re_sub_class cls [] s = filter (fun c => negb (cls c)) s.
Proof.
  unfold re_sub_class. induction s as [|c s IH]; [reflexivity|].
  cbn [flat_map filter]. rewrite IH. destruct (cls c); reflexivity.
Qed.

Lemma regex_path_meets_spec (text : str) :
  re_sub_class (not_word_not_space ucd) [] (lower ucd text)
  = normalize_regex_spec ucd text.
Proof.
  rewrite re_sub_class_delete. unfold normalize_regex_spec.
  apply filter_ext. intros c. unfold not_word_not_space. apply negb_involutive.
Qed.

Lemma lower_from_ascii (before s : str) :
  forallb is_ascii s = true -> lower_from ucd before s = map ascii_lower s.
Proof.
  revert before; induction s as [|c s IH]; intros before H; [reflexivity|].
  cbn [forallb] in H. apply andb_true_iff in H. destruct H as [Hc Hs].
  cbn [lower_from map]. rewrite Hc, (IH _ Hs). reflexivity.
Qed.

Lemma filter_filter_space (keep : codepoint -> bool) (s : str) :
  (forall c, is_space ucd c = true -> keep c = true) ->
  filter (is_space ucd) (filter keep s) = filter (is_space ucd) s.
Proof.
  intros K. induction s as [|c s IH]; [reflexivity|].
  cbn [filter]. destruct (keep c) eqn:Hk; cbn [filter]; rewrite IH.
  - reflexivity.
  - destruct (is_space ucd c) eqn:Hs; [|reflexivity].
    rewrite (K c Hs) in Hk. discriminate.
Qed.
End Normaliser.

(** C7.  When the annotator is not available, [preprocess_text] returns
    the text lower-cased with every character removed that is neither a
    word character nor whitespace: what remains is made of word
    characters and whitespace, and the whitespace of the lower-cased text
    is all kept, in its order.  On ASCII text lower-casing maps A..Z to
    a..z.  "I HAVE a Headache!!" becomes "i have a headache", which
    contains the word "headache". *)
Theorem regex_fallback :
  forall (ucd : UnicodeDB) (spacy_load : nat -> result Language),
    (forall text w,
        _nlp w = None -> next_load_fails spacy_load w ->
        value_of (preprocess_text ucd spacy_load text w)
        = Ok (normalize_regex_spec ucd text))
    /\ (forall text c,
           In c (normalize_regex_spec ucd text) ->
           In c (lower ucd text) /\ (is_word ucd c = true \/ is_space ucd c = true))
    /\ (forall text,
           filter (is_space ucd) (normalize_regex_spec ucd text)
           = filter (is_space ucd) (lower ucd text))
    /\ (forall text,
           forallb is_ascii text = true -> lower ucd text = map ascii_lower text)
    /\ normalize_regex_spec ucd (lit "I HAVE a Headache!!") = lit "i have a headache"
    /\ contains (normalize_regex_spec ucd (lit "I HAVE a Headache!!")) (lit "headache") = true.
Proof.
  intros ucd spacy_load. split; [|split; [|split; [|split; [|split]]]].
  - intros text w H L. unfold next_load_fails in L.
    rewrite preprocess_text_decompose. unfold value_of. cbn [fst].
    destruct (spacy_load (spacy_attempts w)) as [m|e] eqn:E; [discriminate|].
    rewrite (get_nlp_model_load_fail spacy_load w e H E). cbn [fst normalize_with].
    rewrite regex_path_meets_spec. reflexivity.
  - intros text c H. unfold normalize_regex_spec in H.
    apply filter_In in H. destruct H as [H1 H2].
    split; [exact H1 | apply orb_true_iff, H2].
  - intros text. unfold normalize_regex_spec. apply filter_filter_space.
    intros c Hc. rewrite Hc. apply orb_true_r.
  - intros text. apply lower_from_ascii.
  - vm_compute. reflexivity.
  - vm_compute. reflexivity.
Qed.

Lemma regex_fallback_witness :
  value_of (preprocess_text Fixture.ascii_ucd Fixture.spacy_missing
              (lit "I HAVE a Headache!!") initial_world)
  = Ok (lit "i have a headache").
Proof.
  rewrite (proj1 (regex_fallback Fixture.ascii_ucd Fixture.spacy_missing)
             (lit "I HAVE a Headache!!") initial_world eq_refl eq_refl).
  rewrite (proj1 (proj2 (proj2 (proj2 (proj2
             (regex_fallback Fixture.ascii_ucd Fixture.spacy_missing)))))).
  reflexivity.
Defined.

(* ================================================================== *)
(** ** Inference *)
(* ================================================================== *)

Lemma fmax_cases (a b : float) : fmax a b = a \/ fmax a b = b.
Proof.
  destruct a as [x|na|], b as [y|nb|]; cbn [fmax]; auto;
    match goal with |- context [if ?c then _ else _] => destruct c end; auto.
Qed.

Lemma fold_fmax_In (l : list float) (a : float) : In (fold_left fmax l a) (a :: l).
Proof.
  revert a; induction l as [|b l IH]; intros a; [left; reflexivity|].
  cbn [fold_left]. destruct (IH (fmax a b)) as [H|H].
  - rewrite <- H. destruct (fmax_cases a b) as [E|E]; rewrite E; simpl; auto.
  - right; right; exact H.
Qed.

(** [np.max] returns one of the elements. *)
Lemma np_max_In (l : list float) (c : float) : np_max l = Ok c -> In c l.
Proof.
  destruct l as [|a l]; [discriminate|]. cbn [np_max]. intros H. injection H as <-.
  apply fold_fmax_In.
Qed.

Lemma fold_fmax_Finite (qs : list Q) (a : Q) :
  exists c, fold_left fmax (map Finite qs) (Finite a) = Finite c
            /\ a <= c /\ forall q, In q qs -> q <= c.
Proof.
  revert a; induction qs as [|b qs IH]; intros a.
  - exists a. split; [reflexivity|]. split; [apply Qle_refl | intros q []].
  - cbn [map fold_left fmax flt].
    destruct (Qlt_le_dec a b) as [Hlt|Hle].
    + destruct (IH b) as [c [E [Hb Hq]]]. exists c. split; [exact E|].
      split; [apply Qlt_le_weak; eapply Qlt_le_trans; eauto|].
      intros q [<-|H]; auto.
    + destruct (IH a) as [c [E [Ha Hq]]]. exists c. split; [exact E|].
      split; [exact Ha|].
      intros q [<-|H]; [eapply Qle_trans; eauto | auto].
Qed.

(** On finite values [np.max] returns an element that bounds all. *)
Lemma np_max_Finite (qs : list Q) (r : float) :
  np_max (map Finite qs) = Ok r ->
  exists c, r = Finite c /\ In c qs /\ forall q, In q qs -> q <= c.
Proof.
  intros H. pose proof (np_max_In _ _ H) as Hin.
  destruct qs as [|a qs]; [discriminate|].
  cbn [map np_max] in H. injection H as H.
  destruct (fold_fmax_Finite qs a) as [c [E [Ha Hq]]].
  rewrite E in H. subst r. exists c. split; [reflexivity|]. split.
  - apply in_map_iff in Hin. destruct Hin as [q [Eq Hin]]. injection Eq as ->. exact Hin.
  - intros q [<-|Hin']; auto.
Qed.

Lemma Qsum_bound (qs : list Q) (c : Q) :
  (forall q, In q qs -> q <= c) -> Qsum qs <= inject_Z (Z.of_nat (List.length qs)) * c.
Proof.
  induction qs as [|a qs IH]; intros H.
  - cbn. rewrite Qmult_0_l. apply Qle_refl.
  - cbn [Qsum fold_right List.length]. fold (Qsum qs).
    rewrite Nat2Z.inj_succ, <- Z.add_1_r, inject_Z_plus.
    rewrite Qmult_plus_distr_l, Qmult_1_l, Qplus_comm.
    apply Qplus_le_compat; [apply IH; intros q Hq; apply H; right; exact Hq|].
    apply H; left; reflexivity.
Qed.

(** The largest of four probabilities that sum to one is at least 1/4. *)
Lemma max_of_four_at_least_quarter (qs : list Q) (c : Q) :
  List.length qs = 4%nat -> Qsum qs == 1 ->
  (forall q, In q qs -> q <= c) -> 1 # 4 <= c.
Proof.
  intros Hlen Hsum Hmax. pose proof (Qsum_bound qs c Hmax) as B.
  rewrite Hlen, Hsum in B. clear - B. destruct c as [n d].
  unfold Qle, Qmult, inject_Z in *. cbn [Qnum Qden] in *.
  rewrite Pos.mul_1_l in B. lia.
Qed.

Lemma corpus_labels (l : str) :
  In l (map snd ALL_TRAINING_DATA) -> In l SEVERITY_CLASSES.
Proof.
  intros H. cbv [ALL_TRAINING_DATA TRIAGE_TRAINING_DATA MEDICAL_TRAINING_DATA
                 app map snd] in H.
  unfold SEVERITY_CLASSES.
  repeat (destruct H as [<-|H]; [simpl; tauto|]). contradiction.
Qed.

Section Inference.
Variable ucd : UnicodeDB.
Variable ML_AVAILABLE : bool.
Variable spacy_load : nat -> result Language.

Local Abbreviation assess := (assess_symptoms ucd ML_AVAILABLE spacy_load).
Local Abbreviation body := (assess_body ucd ML_AVAILABLE spacy_load).
Local Abbreviation get := (get_nlp_model spacy_load).

(** The body of the [try] is the normaliser followed by [infer]. *)
Lemma assess_body_decompose (self : TriageAI) (m : Pipeline) (text : str) (w : World) :
  body self m text w
  = (bind_result (fst (preprocess_text ucd spacy_load text w))
       (infer ML_AVAILABLE self m text),
     snd (preprocess_text ucd spacy_load text w)).
Proof.
  unfold assess_body. unfold bind at 1.
  destruct (preprocess_text ucd spacy_load text w) as [[pre|e] w1]; [|reflexivity].
  cbn [fst snd bind_result]. unfold infer, bind, lift, ret.
  destruct (predict m [pre]) as [predicted|e]; [|reflexivity]. cbn [bind_result].
  destruct (index0 predicted) as [sev|e]; [|reflexivity]. cbn [bind_result].
  destruct (predict_proba m [pre]) as [probas|e]; [|reflexivity]. cbn [bind_result].
  destruct (index0 probas) as [row|e]; [|reflexivity]. cbn [bind_result].
  destruct ML_AVAILABLE.
  - destruct (np_max row); reflexivity.
  - destruct row; reflexivity.
Qed.

(** With a model, a call never raises; what it returns is a function of
    the answer of [get_nlp_model], and it leaves the cache and the count
    of attempts as [get_nlp_model] left them. *)
Lemma assess_symptoms_decompose (self : TriageAI) (m : Pipeline) (text : str) (w : World) :
  model self = Some m ->
  exists lg,
    assess self text w
    = (Ok (assessment_given ucd ML_AVAILABLE self m text (fst (get w))),
       mkWorld (_nlp (snd (get w))) (spacy_attempts (snd (get w))) lg).
Proof.
  intros Hm. unfold assess_symptoms. rewrite Hm. unfold try_except.
  rewrite assess_body_decompose, preprocess_text_decompose. cbn [fst snd].
  unfold assessment_given.
  destruct (get w) as [r w1]. cbn [fst snd].
  destruct r as [nlp|e]; cbn [bind_result].
  - destruct (bind_result (normalize_with ucd nlp text) (infer ML_AVAILABLE self m text))
      as [a|e].
    + exists (log w1). destruct w1; reflexivity.
    + eexists. reflexivity.
  - eexists. reflexivity.
Qed.

(** What a successful inference returns. *)
Lemma infer_ok (self : TriageAI) (m : Pipeline) (text pre : str) (r : Assessment) :
  infer ML_AVAILABLE self m text pre = Ok r ->
  exists predicted row rows,
    predict m [pre] = Ok (severity r :: predicted)
    /\ predict_proba m [pre] = Ok (row :: rows)
    /\ (if ML_AVAILABLE then np_max row = Ok (confidence r)
        else confidence r = hd f0 row)
    /\ recommendation r = generate_recommendation self (severity r) (confidence r) text.
Proof.
  unfold infer. intros H.
  destruct (predict m [pre]) as [[|sev predicted]|e]; try discriminate H.
  destruct (predict_proba m [pre]) as [[|row rows]|e]; try discriminate H.
  cbn [index0 bind_result] in H.
  destruct ML_AVAILABLE.
  - destruct (np_max row) as [c|e] eqn:E; [|discriminate H].
    cbn [bind_result] in H. injection H as <-.
    exists predicted, row, rows. cbn [severity confidence recommendation]. auto.
  - exists predicted, row, rows.
    destruct row as [|p row]; cbn [bind_result] in H; injection H as <-;
      cbn [severity confidence recommendation hd]; auto.
Qed.

(** With a classifier that keeps to its labels and to the unit interval,
    every call returns a well-formed assessment. *)
Lemma assess_symptoms_well_formed (self : TriageAI) (labels : list str)
    (text : str) (w : World) :
  (forall l, In l labels -> In l SEVERITY_CLASSES) ->
  (forall m, model self = Some m -> predicts_within m labels /\ proba_within_unit m) ->
  exists r w',
    assess self text w = (Ok r, w')
    /\ In (severity r) VALID_SEVERITIES
    /\ in_unit_interval (confidence r) = true.
Proof.
  intros Hlabels Hcontract.
  destruct (model self) as [m|] eqn:Hm.
  - destruct (assess_symptoms_decompose self m text w Hm) as [lg E].
    eexists _, _. split; [exact E|].
    unfold assessment_given.
    destruct (bind_result (fst (get w)) (fun nlp => normalize_with ucd nlp text))
      as [pre|e]; cbn [bind_result]; [|simpl; auto 10].
    destruct (infer ML_AVAILABLE self m text pre) as [r|e] eqn:Hi; [|simpl; auto 10].
    destruct (infer_ok self m text pre r Hi) as [predicted [row [rows [Hp [Hq [Hc _]]]]]].
    destruct (Hcontract m eq_refl) as [Hin Hunit].
    split.
    + apply Hin in Hp. inversion Hp as [|? ? Hsev _]; subst.
      apply Hlabels in Hsev. unfold SEVERITY_CLASSES in Hsev. unfold VALID_SEVERITIES.
      simpl in *. tauto.
    + apply Hunit in Hq. inversion Hq as [|? ? Hrow _]; subst.
      rewrite Forall_forall in Hrow.
      destruct ML_AVAILABLE.
      * apply Hrow, np_max_In, Hc.
      * rewrite Hc. destruct row as [|p row]; [reflexivity|].
        apply Hrow. left; reflexivity.
  - exists no_model_assessment, w. split.
    + unfold assess_symptoms. rewrite Hm. reflexivity.
    + simpl. auto 10.
Qed.
End Inference.

(** C1.  With a classifier that keeps to the labels it was fitted on and
    to the unit interval, [assess_patient_symptoms] on the orchestrator
    built by [TriageAI()] returns, for every text and in every state of
    the module, an assessment whose severity is one of Low, Medium, High,
    Critical and Unknown and whose confidence lies in [0,1]; it never
    raises. *)
Theorem assessment_total :
  forall ucd ML_AVAILABLE spacy_load sk_fit,
    sklearn_contract sk_fit ->
    forall w0 triage_ai w1,
      TriageAI_init ucd ML_AVAILABLE spacy_load sk_fit w0 = (Ok triage_ai, w1) ->
      forall symptoms_text w,
      exists r w',
        assess_patient_symptoms ucd ML_AVAILABLE spacy_load triage_ai symptoms_text w
        = (Ok r, w')
        /\ In (severity r) VALID_SEVERITIES
        /\ exists q, confidence r = Finite q /\ 0 <= q <= 1.
Proof.
  intros ucd ML_AVAILABLE spacy_load sk_fit Hsk w0 triage_ai w1 Hinit text w.
  unfold assess_patient_symptoms.
  cut (exists r w',
          assess_symptoms ucd ML_AVAILABLE spacy_load triage_ai text w = (Ok r, w')
          /\ In (severity r) VALID_SEVERITIES
          /\ in_unit_interval (confidence r) = true).
  { intros [r [w' [E [Hs Hc]]]]. exists r, w'.
    split; [exact E|]. split; [exact Hs|]. apply in_unit_interval_Finite, Hc. }
  apply (assess_symptoms_well_formed ucd ML_AVAILABLE spacy_load triage_ai
           (map snd ALL_TRAINING_DATA)).
  - apply corpus_labels.
  - intros m Hm.
    destruct (TriageAI_init_cases ucd ML_AVAILABLE spacy_load sk_fit w0)
      as [ai [w1' [Hinit' [_ Hmodel]]]].
    rewrite Hinit in Hinit'. injection Hinit' as <- <-.
    destruct (Hmodel m Hm) as [_ [X Hfit]].
    exact (Hsk X _ m Hfit).
Qed.

(** The memorising classifier of the fixture honours the contract. *)
Lemma memo_fit_contract : sklearn_contract Fixture.memo_fit.
Proof.
  intros X y m Hfit. unfold Fixture.memo_fit in Hfit.
  destruct y as [|l0 y]; [discriminate|]. injection Hfit as <-.
  split.
  - intros xs ys H. cbn [predict] in H. injection H as <-.
    apply Forall_forall. intros l Hl. apply in_map_iff in Hl.
    destruct Hl as [x [<- _]].
    destruct (Fixture.lookup (combine X (l0 :: y)) x) as [l|] eqn:E; [|left; reflexivity].
    assert (G : forall docs, Fixture.lookup docs x = Some l -> exists d, In (d, l) docs).
    { clear. induction docs as [|[d l'] docs IH]; [discriminate|].
      cbn [Fixture.lookup]. destruct (str_eqb d x).
      - intros H. injection H as ->. exists d. left; reflexivity.
      - intros H. destruct (IH H) as [d' Hd]. exists d'. right; exact Hd. }
    destruct (G _ E) as [d Hd]. exact (in_combine_r _ _ _ _ Hd).
  - intros xs rows H. cbn [predict_proba] in H. injection H as <-.
    apply Forall_forall. intros row Hrow. apply in_map_iff in Hrow.
    destruct Hrow as [x [<- _]].
    destruct (Fixture.lookup (combine X (l0 :: y)) x) as [l|].
    + unfold Fixture.one_hot. apply Forall_forall. intros p Hp.
      apply in_map_iff in Hp. destruct Hp as [c [<- _]].
      destruct (str_eqb c l); reflexivity.
    + repeat constructor.
Qed.

Lemma assessment_total_witness :
  exists r w',
    assess_patient_symptoms Fixture.ascii_ucd true Fixture.late_spacy
      Fixture.trained_ai Fixture.chest_pain (snd Fixture.trained)
    = (Ok r, w')
    /\ In (severity r) VALID_SEVERITIES
    /\ exists q, confidence r = Finite q /\ 0 <= q <= 1.
Proof.
  apply (assessment_total Fixture.ascii_ucd true Fixture.late_spacy Fixture.memo_fit
           memo_fit_contract initial_world Fixture.trained_ai (snd Fixture.trained)).
  vm_compute. reflexivity.
Defined.

(** C5.  When the classifier of the orchestrator built by [TriageAI()]
    returns a row of probabilities for the normalised text, the
    confidence of the assessment is the maximum of that row: an element
    of the row that bounds all the others, so that the sum of the row is
    at most its length times the confidence.  For a row of four
    probabilities that sum to one the confidence is therefore at least
    1/4. *)
Theorem confidence_is_max_probability :
  forall ucd ML_AVAILABLE spacy_load sk_fit w0 triage_ai w1,
    TriageAI_init ucd ML_AVAILABLE spacy_load sk_fit w0 = (Ok triage_ai, w1) ->
    forall m symptoms_text w pre w' sev predicted q0 qs rows,
      model triage_ai = Some m ->
      preprocess_text ucd spacy_load symptoms_text w = (Ok pre, w') ->
      predict m [pre] = Ok (sev :: predicted) ->
      predict_proba m [pre] = Ok (map Finite (q0 :: qs) :: rows) ->
      exists c,
        assess_symptoms ucd ML_AVAILABLE spacy_load triage_ai symptoms_text w
        = (Ok (mkAssessment sev
                 (generate_recommendation triage_ai sev (Finite c) symptoms_text)
                 (Finite c)), w')
        /\ In c (q0 :: qs)
        /\ (forall q, In q (q0 :: qs) -> q <= c)
        /\ Qsum (q0 :: qs) <= inject_Z (Z.of_nat (List.length (q0 :: qs))) * c
        /\ (List.length (q0 :: qs) = 4%nat -> Qsum (q0 :: qs) == 1 -> 1 # 4 <= c).
Proof.
  intros ucd ML_AVAILABLE spacy_load sk_fit w0 triage_ai w1 Hinit
    m text w pre w' sev predicted q0 qs rows Hm Hpre Hp Hq.
  destruct (TriageAI_init_cases ucd ML_AVAILABLE spacy_load sk_fit w0)
    as [ai [w1' [Hinit' [_ Hmodel]]]].
  rewrite Hinit in Hinit'. injection Hinit' as <- <-.
  destruct (Hmodel m Hm) as [-> _].
  destruct (np_max (map Finite (q0 :: qs))) as [r|e] eqn:Hmax; [|discriminate].
  destruct (np_max_Finite (q0 :: qs) r Hmax) as [c [-> [Hin Hle]]].
  exists c. split; [|split; [exact Hin | split; [exact Hle | split]]].
  - apply (assess_symptoms_body_ok ucd true spacy_load triage_ai m); [exact Hm|].
    rewrite assess_body_decompose, Hpre. cbn [fst snd bind_result].
    unfold infer. rewrite Hp, Hq. cbn [index0 bind_result]. rewrite Hmax.
    reflexivity.
  - apply Qsum_bound, Hle.
  - intros Hlen Hsum. apply (max_of_four_at_least_quarter (q0 :: qs) c Hlen Hsum Hle).
Qed.

Lemma confidence_is_max_probability_witness :
  exists c,
    assess_symptoms Fixture.ascii_ucd true Fixture.spacy_missing Samples.skewed_ai
      Fixture.chest_pain (snd Samples.skewed)
    = (Ok (mkAssessment (lit "High")
             (generate_recommendation Samples.skewed_ai (lit "High") (Finite c)
                Fixture.chest_pain)
             (Finite c)),
       snd (assess_symptoms Fixture.ascii_ucd true Fixture.spacy_missing Samples.skewed_ai
              Fixture.chest_pain (snd Samples.skewed)))
    /\ c = 1 # 2
    /\ In c [1#10; 1#2; 3#10; 1#10]
    /\ (forall q, In q [1#10; 1#2; 3#10; 1#10] -> q <= c)
    /\ 1 # 4 <= c.
Proof.
  assert (Hinit : TriageAI_init Fixture.ascii_ucd true Fixture.spacy_missing
                    Samples.skewed_fit initial_world
                  = (Ok Samples.skewed_ai, snd Samples.skewed))
    by (vm_compute; reflexivity).
  assert (Hpre : exists pre w',
             preprocess_text Fixture.ascii_ucd Fixture.spacy_missing Fixture.chest_pain
               (snd Samples.skewed) = (Ok pre, w')
             /\ w' = snd (assess_symptoms Fixture.ascii_ucd true Fixture.spacy_missing
                            Samples.skewed_ai Fixture.chest_pain (snd Samples.skewed)))
    by (vm_compute; eexists _, _; split; reflexivity).
  destruct Hpre as [pre [w' [Hpre Hw]]].
  destruct (confidence_is_max_probability Fixture.ascii_ucd true Fixture.spacy_missing
              Samples.skewed_fit initial_world Samples.skewed_ai (snd Samples.skewed)
              Hinit Samples.skewed_pipeline Fixture.chest_pain (snd Samples.skewed)
              pre w' (lit "High") [] (1#10) [1#2; 3#10; 1#10] []
              eq_refl Hpre eq_refl eq_refl)
    as [c [E [Hin [Hle [_ Hquarter]]]]].
  exists c. rewrite <- Hw. split; [exact E|].
  assert (Hc : c = 1 # 2).
  { destruct Hin as [<-|[<-|[<-|[<-|[]]]]]; try reflexivity; exfalso.
    - specialize (Hle (1#2) (or_intror (or_introl eq_refl))). revert Hle. vm_compute. auto.
    - specialize (Hle (1#2) (or_intror (or_introl eq_refl))). revert Hle. vm_compute. auto.
    - specialize (Hle (1#2) (or_intror (or_introl eq_refl))). revert Hle. vm_compute. auto. }
  split; [exact Hc|]. split; [exact Hin|]. split; [exact Hle|].
  apply Hquarter; reflexivity.
Defined.

(* ================================================================== *)
(** ** Repeated assessments *)
(* ================================================================== *)

(** C6, as stated, fails.  In the process of the fixture spaCy cannot be
    loaded until the first assessment is over: the first call normalises
    the text by the regex path and the classifier answers "Critical"; the
    second call, same instance and same text, loads the annotator,
    normalises by its tokens and the classifier answers "Low". *)
Lemma repeated_assessment_differs :
  value_of Fixture.first_call <> value_of Fixture.second_call.
Proof. intros H. vm_compute in H. discriminate H. Qed.

Example repeated_assessment_severities :
  exists r1 r2,
    value_of Fixture.first_call = Ok r1 /\ value_of Fixture.second_call = Ok r2
    /\ severity r1 = lit "Critical" /\ confidence r1 = Finite 1
    /\ severity r2 = lit "Low" /\ confidence r2 = Finite (1 # 4).
Proof. eexists _, _. vm_compute. repeat split. Qed.

(** A call that follows another sees the annotator the first one saw,
    unless the first failed to load it and the second succeeds. *)
Lemma get_nlp_model_again (spacy_load : nat -> result Language) (w w1 : World) :
  _nlp w1 = _nlp (snd (get_nlp_model spacy_load w)) ->
  (_nlp w1 = None -> next_load_fails spacy_load w1) ->
  fst (get_nlp_model spacy_load w1) = fst (get_nlp_model spacy_load w).
Proof.
  intros Hcache Hstable.
  rewrite (get_nlp_model_returns_cache spacy_load w), <- Hcache.
  destruct (_nlp w1) as [a|] eqn:H1.
  - rewrite (get_nlp_model_cached spacy_load w1 a H1). reflexivity.
  - specialize (Hstable eq_refl). unfold next_load_fails in Hstable.
    destruct (spacy_load (spacy_attempts w1)) as [a|e] eqn:L; [discriminate|].
    rewrite (get_nlp_model_load_fail spacy_load w1 e H1 L). reflexivity.
Qed.

(** C6, amended.  For a fixed instance and a fixed text, a call and the
    call that follows it return the same assessment, provided the
    annotator is as available to the second as it was to the first: if
    the first call left the annotator unloaded, the load attempted by the
    second fails as well. *)
Theorem repeated_assessment_stable :
  forall ucd ML_AVAILABLE spacy_load self symptoms_text w,
    let first := assess_symptoms ucd ML_AVAILABLE spacy_load self symptoms_text w in
    (_nlp (world_of first) = None -> next_load_fails spacy_load (world_of first)) ->
    value_of (assess_symptoms ucd ML_AVAILABLE spacy_load self symptoms_text (world_of first))
    = value_of first.
Proof.
  intros ucd ML_AVAILABLE spacy_load self text w first Hstable. subst first.
  destruct (model self) as [m|] eqn:Hm.
  - destruct (assess_symptoms_decompose ucd ML_AVAILABLE spacy_load self m text w Hm)
      as [lg E].
    rewrite E in *. unfold world_of, value_of in *. cbn [fst snd] in *.
    match goal with
    | |- context [assess_symptoms _ _ _ _ _ ?w1] =>
        destruct (assess_symptoms_decompose ucd ML_AVAILABLE spacy_load self m text w1 Hm)
          as [lg' E']; rewrite E'; cbn [fst];
        rewrite (get_nlp_model_again spacy_load w w1 eq_refl Hstable)
    end.
    reflexivity.
  - rewrite !(assess_symptoms_no_model ucd ML_AVAILABLE spacy_load self text); auto.
Qed.

Lemma repeated_assessment_stable_witness :
  let first :=
    assess_symptoms Fixture.ascii_ucd true Fixture.spacy_missing
      Fixture.regex_ai Fixture.chest_pain (snd Fixture.trained_without_spacy) in
  value_of first = Ok (mkAssessment (lit "Critical")
                         (dict_get recommendations (lit "Critical") default_recommendation)
                         (Finite 1))
  /\ value_of (assess_symptoms Fixture.ascii_ucd true Fixture.spacy_missing
                 Fixture.regex_ai Fixture.chest_pain (world_of first))
     = value_of first.
Proof.
  intros first. split; [vm_compute; reflexivity|].
  apply (repeated_assessment_stable Fixture.ascii_ucd true Fixture.spacy_missing
           Fixture.regex_ai Fixture.chest_pain (snd Fixture.trained_without_spacy)).
  intros _. unfold next_load_fails. vm_compute. reflexivity.
Defined.

(* ================================================================== *)
(** ** The footprint of the operations on the annotator *)
(* ================================================================== *)

Section FootprintFacts.
Variable ucd : UnicodeDB.
Variable ML_AVAILABLE : bool.
Variable spacy_load : nat -> result Language.
Variable sk_fit : list str -> list str -> result Pipeline.

Local Abbreviation kept := (annotator_kept spacy_load).
Local Abbreviation get := (get_nlp_model spacy_load).
Local Abbreviation pre := (preprocess_text ucd spacy_load).

Lemma cache_consistent_ext (w w' : World) :
  _nlp w' = _nlp w -> spacy_attempts w' = spacy_attempts w ->
  cache_consistent spacy_load w -> cache_consistent spacy_load w'.
Proof.
  unfold cache_consistent, successful_loads. intros -> ->. exact (fun H => H).
Qed.

Lemma kept_refl (w : World) : kept 0 w w.
Proof.
  split; [exact (fun H => H)|]. split; [lia|]. intros nlp H. split; [exact H | reflexivity].
Qed.

Lemma kept_ext (n : nat) (w w1 w2 : World) :
  _nlp w2 = _nlp w1 -> spacy_attempts w2 = spacy_attempts w1 ->
  kept n w w1 -> kept n w w2.
Proof.
  intros Hc Ha [K1 [K2 K3]]. split; [|split].
  - intros C. apply (cache_consistent_ext w1 w2 Hc Ha), K1, C.
  - rewrite Ha. exact K2.
  - intros nlp H. rewrite Hc, Ha. apply K3, H.
Qed.

Lemma kept_trans (a b : nat) (w w1 w2 : World) :
  kept a w w1 -> kept b w1 w2 -> kept (a + b) w w2.
Proof.
  intros [K1 [K2 K3]] [L1 [L2 L3]]. split; [|split].
  - intros C. apply L1, K1, C.
  - lia.
  - intros nlp H. destruct (K3 nlp H) as [H1 E1]. destruct (L3 nlp H1) as [H2 E2].
    split; [exact H2 | congruence].
Qed.

Lemma kept_weaken (n m : nat) (w w' : World) : (n <= m)%nat -> kept n w w' -> kept m w w'.
Proof.
  intros Hnm [K1 [K2 K3]]. split; [exact K1|]. split; [lia | exact K3].
Qed.

Lemma get_nlp_model_kept (w : World) : kept 1 w (snd (get w)).
Proof.
  split; [apply get_nlp_model_consistent|].
  destruct (get_nlp_model_cases spacy_load w)
    as [[m [H E]] | [[m [H [L E]]] | [e [H [L E]]]]]; rewrite E; cbn [snd spacy_attempts _nlp].
  - split; [lia|]. intros nlp Hn. split; [exact Hn | reflexivity].
  - split; [lia|]. intros nlp Hn. congruence.
  - split; [lia|]. intros nlp Hn. congruence.
Qed.

Lemma preprocess_text_kept (text : str) (w : World) : kept 1 w (snd (pre text w)).
Proof. rewrite preprocess_text_decompose. cbn [snd]. apply get_nlp_model_kept. Qed.

Lemma mapM_cons_world (text : str) (texts : list str) (w : World) :
  snd (mapM pre (text :: texts) w)
  = match fst (pre text w) with
    | Ok _ => snd (mapM pre texts (snd (pre text w)))
    | Raise _ => snd (pre text w)
    end.
Proof.
  cbn [mapM]. unfold bind at 1. destruct (pre text w) as [[t|e] w1]; [|reflexivity].
  cbn [fst snd]. unfold bind. destruct (mapM pre texts w1) as [[ts|e] w2]; reflexivity.
Qed.

Lemma mapM_preprocess_kept (texts : list str) (w : World) :
  kept (List.length texts) w (snd (mapM pre texts w)).
Proof.
  revert w; induction texts as [|text texts IH]; intros w; [apply kept_refl|].
  rewrite mapM_cons_world. pose proof (preprocess_text_kept text w) as K.
  destruct (fst (pre text w)).
  - apply (kept_trans 1 (List.length texts) w _ _ K), IH.
  - apply (kept_weaken 1); [cbn; lia | exact K].
Qed.

(** [TriageAI()] step by step. *)
Lemma TriageAI_init_run (w : World) :
  TriageAI_init ucd ML_AVAILABLE spacy_load sk_fit w
  = if ML_AVAILABLE then
      match mapM pre (map fst ALL_TRAINING_DATA) w with
      | (Ok preprocessed, w1) =>
          match sk_fit preprocessed (map snd ALL_TRAINING_DATA) with
          | Ok fitted =>
              (Ok (mkTriageAI (Some fitted) f0_6),
               mkWorld (_nlp w1) (spacy_attempts w1)
                 (log w1 ++ [(INFO, lit "Triage AI model successfully initialized")]))
          | Raise e =>
              (Ok (mkTriageAI None f0_6),
               mkWorld (_nlp w1) (spacy_attempts w1)
                 (log w1 ++ [(ERROR, lit "Error initializing triage model: " ++ exc_str e)]))
          end
      | (Raise e, w1) =>
          (Ok (mkTriageAI None f0_6),
           mkWorld (_nlp w1) (spacy_attempts w1)
             (log w1 ++ [(ERROR, lit "Error initializing triage model: " ++ exc_str e)]))
      end
    else
      (Ok (mkTriageAI None f0_6),
       mkWorld (_nlp w) (spacy_attempts w)
         (log w ++ [(WARNING,
                     lit "ML dependencies not available. Triage AI will use fallback mode.")])).
Proof.
  unfold TriageAI_init, initialize_model.
  destruct ML_AVAILABLE; cbn [negb]; [|reflexivity].
  unfold try_except. unfold bind at 1.
  match goal with
  | |- context [mapM ?f ?l w] => destruct (mapM f l w) as [[preprocessed|e] w1]
  end; [|reflexivity].
  unfold bind at 1, lift.
  match goal with
  | |- context [sk_fit preprocessed ?y] => destruct (sk_fit preprocessed y) as [m|e]
  end; reflexivity.
Qed.

(** The footprint of the three operations on the annotator. *)
Lemma annotator_footprint :
  forall (self : TriageAI) (text : str) (w : World),
    kept 1 w (snd (pre text w))
    /\ kept (List.length ALL_TRAINING_DATA) w
         (snd (TriageAI_init ucd ML_AVAILABLE spacy_load sk_fit w))
    /\ kept 1 w (snd (assess_symptoms ucd ML_AVAILABLE spacy_load self text w))
    /\ List.length ALL_TRAINING_DATA = 48%nat.
Proof.
  intros self text w. split; [apply preprocess_text_kept|]. split; [|split; [|reflexivity]].
  - rewrite TriageAI_init_run. destruct ML_AVAILABLE.
    + pose proof (mapM_preprocess_kept (map fst ALL_TRAINING_DATA) w) as K.
      rewrite length_map in K.
      destruct (mapM pre (map fst ALL_TRAINING_DATA) w) as [[preprocessed|e] w1].
      * destruct (sk_fit preprocessed (map snd ALL_TRAINING_DATA));
          cbn [snd] in *; apply (kept_ext _ w w1); auto.
      * cbn [snd] in *; apply (kept_ext _ w w1); auto.
    + cbn [snd]. apply (kept_ext _ w w); auto.
      apply (kept_weaken 0); [lia | apply kept_refl].
  - destruct (model self) as [m|] eqn:Hm.
    + destruct (assess_symptoms_decompose ucd ML_AVAILABLE spacy_load self m text w Hm)
        as [lg E].
      rewrite E. cbn [snd].
      apply (kept_ext _ w (snd (get w))); auto. apply get_nlp_model_kept.
    + rewrite (assess_symptoms_no_model ucd ML_AVAILABLE spacy_load self text w Hm).
      cbn [snd]. apply (kept_weaken 0); [lia | apply kept_refl].
Qed.
End FootprintFacts.

(** X2.  Normalising a text, building the orchestrator and assessing a
    text keep the cache of the annotator in agreement with the history
    of the load attempts, never touch a filled cache and make no attempt
    when it is filled; otherwise they make at most one attempt, and
    [TriageAI()] at most one for each of the 48 texts of the corpus. *)
Theorem operations_keep_annotator :
  forall ucd ML_AVAILABLE spacy_load sk_fit (self : TriageAI) (text : str) (w : World),
    annotator_kept spacy_load 1 w (snd (preprocess_text ucd spacy_load text w))
    /\ annotator_kept spacy_load (List.length ALL_TRAINING_DATA) w
         (snd (TriageAI_init ucd ML_AVAILABLE spacy_load sk_fit w))
    /\ annotator_kept spacy_load 1 w
         (snd (assess_symptoms ucd ML_AVAILABLE spacy_load self text w))
    /\ List.length ALL_TRAINING_DATA = 48%nat.
Proof. exact annotator_footprint. Qed.

(* ================================================================== *)
(** ** A process from its start *)
(* ================================================================== *)

Section Process.
Variable ucd : UnicodeDB.
Variable ML_AVAILABLE : bool.
Variable spacy_load : nat -> result Language.
Variable sk_fit : list str -> list str -> result Pipeline.

Local Abbreviation kept := (annotator_kept spacy_load).
Local Abbreviation pre := (preprocess_text ucd spacy_load).

Lemma assess_each_kept (self : TriageAI) (texts : list str) (w : World) :
  kept (List.length texts) w (snd (assess_each ucd ML_AVAILABLE spacy_load self texts w)).
Proof.
  revert w; induction texts as [|text texts IH]; intros w; [apply kept_refl|].
  cbn [assess_each List.length].
  destruct (annotator_footprint ucd ML_AVAILABLE spacy_load sk_fit self text w)
    as [_ [_ [K _]]].
  destruct (assess_symptoms ucd ML_AVAILABLE spacy_load self text w) as [r w1].
  cbn [snd] in K. specialize (IH w1).
  destruct (assess_each ucd ML_AVAILABLE spacy_load self texts w1) as [rs w2].
  cbn [snd] in *. apply (kept_trans spacy_load 1 (List.length texts) w w1 w2 K IH).
Qed.

Lemma assess_each_never_raises (self : TriageAI) (texts : list str) (w : World) :
  Forall (fun r => is_ok r = true)
    (fst (assess_each ucd ML_AVAILABLE spacy_load self texts w))
  /\ List.length (fst (assess_each ucd ML_AVAILABLE spacy_load self texts w))
     = List.length texts.
Proof.
  revert w; induction texts as [|text texts IH]; intros w; [split; [constructor|reflexivity]|].
  cbn [assess_each].
  assert (R : is_ok (fst (assess_symptoms ucd ML_AVAILABLE spacy_load self text w)) = true).
  { destruct (model self) as [m|] eqn:Hm.
    - destruct (assess_symptoms_decompose ucd ML_AVAILABLE spacy_load self m text w Hm)
        as [lg E]. rewrite E. reflexivity.
    - rewrite (assess_symptoms_no_model ucd ML_AVAILABLE spacy_load self text w Hm).
      reflexivity. }
  destruct (assess_symptoms ucd ML_AVAILABLE spacy_load self text w) as [r w1].
  specialize (IH w1).
  destruct (assess_each ucd ML_AVAILABLE spacy_load self texts w1) as [rs w2].
  cbn [fst snd] in *. destruct IH as [IH1 IH2]. split; [constructor; assumption|].
  cbn [List.length]. rewrite IH2. reflexivity.
Qed.

(** X3.  From the start of a process, building the orchestrator and then
    assessing any list of texts never raises, loads the annotator at most
    once, and attempts the load at most once for each text of the corpus
    and for each assessment. *)
Theorem process_loads_annotator_once :
  forall (texts : list str),
    let started := TriageAI_init ucd ML_AVAILABLE spacy_load sk_fit initial_world in
    exists triage_ai,
      fst started = Ok triage_ai
      /\ let run := assess_each ucd ML_AVAILABLE spacy_load triage_ai texts (snd started) in
         Forall (fun r => is_ok r = true) (fst run)
         /\ List.length (fst run) = List.length texts
         /\ (successful_loads spacy_load (snd run) <= 1)%nat
         /\ (spacy_attempts (snd run) <= 48 + List.length texts)%nat.
Proof.
  intros texts started.
  destruct (TriageAI_init_cases ucd ML_AVAILABLE spacy_load sk_fit initial_world)
    as [ai [w1 [E _]]].
  exists ai. subst started. rewrite E. cbn [fst snd]. split; [reflexivity|].
  cbv zeta.
  destruct (assess_each_never_raises ai texts w1) as [R1 R2].
  split; [exact R1|]. split; [exact R2|].
  destruct (annotator_footprint ucd ML_AVAILABLE spacy_load sk_fit ai [] initial_world)
    as [_ [[K1 [K2 _]] [_ Hlen]]].
  rewrite E, Hlen in *. cbn [snd] in *.
  destruct (assess_each_kept ai texts w1) as [L1 [L2 _]].
  split.
  - assert (C : cache_consistent spacy_load
                  (snd (assess_each ucd ML_AVAILABLE spacy_load ai texts w1))).
    { apply L1, K1. reflexivity. }
    unfold cache_consistent in C.
    destruct (_nlp (snd (assess_each ucd ML_AVAILABLE spacy_load ai texts w1)));
      rewrite C; lia.
  - cbn [initial_world spacy_attempts] in K2. lia.
Qed.

(** With no annotator to load, every text goes the regex path, each at
    the price of one failed attempt and one warning. *)
Lemma mapM_preprocess_unavailable (texts : list str) (w : World) :
  _nlp w = None ->
  spacy_unavailable_from spacy_load w ->
  exists warnings,
    mapM pre texts w
    = (Ok (map (normalize_regex_spec ucd) texts),
       mkWorld None (spacy_attempts w + List.length texts) (log w ++ warnings))
    /\ List.length warnings = List.length texts
    /\ Forall (fun record => fst record = WARNING) warnings.
Proof.
  revert w; induction texts as [|text texts IH]; intros w H U.
  - exists []. destruct w as [c n l]. cbn in *. subst c.
    rewrite Nat.add_0_r, app_nil_r. repeat split. constructor.
  - cbn [mapM]. unfold bind at 1.
    rewrite preprocess_text_decompose.
    destruct (spacy_load (spacy_attempts w)) as [m|e] eqn:L.
    { specialize (U (spacy_attempts w) (Nat.le_refl _)). rewrite L in U. discriminate. }
    rewrite (get_nlp_model_load_fail spacy_load w e H L).
    cbn [fst snd normalize_with]. rewrite regex_path_meets_spec.
    destruct (IH (mkWorld None (S (spacy_attempts w))
                    (log w ++ [(WARNING, load_failure_warning e)])))
      as [warnings [E [Hlen Hall]]].
    + reflexivity.
    + intros i Hi. apply U. cbn [spacy_attempts] in Hi. lia.
    + unfold bind. rewrite E. unfold ret. cbn [spacy_attempts log map List.length].
      exists ((WARNING, load_failure_warning e) :: warnings).
      rewrite <- app_assoc. cbn [app].
      replace (S (spacy_attempts w) + List.length texts)%nat
        with (spacy_attempts w + S (List.length texts))%nat by lia.
      split; [reflexivity|]. split; [cbn; lia | constructor; [reflexivity | exact Hall]].
Qed.

(** X1.  When the statistical libraries are present and the annotator
    cannot be loaded, [TriageAI()] attempts the load once for each of the
    48 texts of the corpus and logs a warning each time; the model it
    holds is what the fit returns on the corpus normalised by the regex
    path, with the labels in the order of the corpus, or no model if the
    fit raises.  One more record reports the outcome of the fit. *)
Theorem init_without_annotator :
  forall (w : World),
    ML_AVAILABLE = true ->
    _nlp w = None ->
    spacy_unavailable_from spacy_load w ->
    exists warnings outcome,
      TriageAI_init ucd ML_AVAILABLE spacy_load sk_fit w
      = (Ok (mkTriageAI
               (model_of (sk_fit (map (normalize_regex_spec ucd) (map fst ALL_TRAINING_DATA))
                                 (map snd ALL_TRAINING_DATA)))
               f0_6),
         mkWorld None (spacy_attempts w + 48) (log w ++ warnings ++ [outcome]))
      /\ List.length warnings = 48%nat
      /\ Forall (fun record => fst record = WARNING) warnings
      /\ (fst outcome = INFO \/ fst outcome = ERROR).
Proof.
  intros w Hml H U. rewrite TriageAI_init_run, Hml.
  destruct (mapM_preprocess_unavailable (map fst ALL_TRAINING_DATA) w H U)
    as [warnings [E [Hlen Hall]]].
  rewrite E. rewrite length_map in *.
  change (List.length ALL_TRAINING_DATA) with 48%nat in *.
  destruct (sk_fit (map (normalize_regex_spec ucd) (map fst ALL_TRAINING_DATA))
                   (map snd ALL_TRAINING_DATA)) as [m|e];
    cbn [model_of _nlp spacy_attempts log]; rewrite <- app_assoc;
    eexists warnings, _; (split; [reflexivity|]); cbn [fst]; auto.
Qed.
End Process.

Lemma init_without_annotator_witness :
  exists warnings outcome,
    TriageAI_init Fixture.ascii_ucd true Fixture.spacy_missing Fixture.memo_fit initial_world
    = (Ok (mkTriageAI
             (model_of (Fixture.memo_fit
                          (map (normalize_regex_spec Fixture.ascii_ucd)
                               (map fst ALL_TRAINING_DATA))
                          (map snd ALL_TRAINING_DATA)))
             f0_6),
       mkWorld None (spacy_attempts initial_world + 48)
         (log initial_world ++ warnings ++ [outcome]))
    /\ List.length warnings = 48%nat
    /\ Forall (fun record => fst record = WARNING) warnings
    /\ (fst outcome = INFO \/ fst outcome = ERROR).
Proof.
  apply (init_without_annotator Fixture.ascii_ucd true Fixture.spacy_missing Fixture.memo_fit
           initial_world).
  - reflexivity.
  - reflexivity.
  - intros i _. reflexivity.
Defined.

(* ================================================================== *)
(** ** The annotator path *)
(* ================================================================== *)

Section AnnotatorPath.
Variable ucd : UnicodeDB.
Variable ML_AVAILABLE : bool.
Variable spacy_load : nat -> result Language.
Variable sk_fit : list str -> list str -> result Pipeline.

Local Abbreviation pre := (preprocess_text ucd spacy_load).

Lemma preprocess_text_cached (nlp : Language) (text : str) (w : World) :
  _nlp w = Some nlp ->
  pre text w = (normalize_with ucd (Some nlp) text, w).
Proof.
  intros H. rewrite preprocess_text_decompose.
  rewrite (get_nlp_model_cached spacy_load w nlp H). reflexivity.
Qed.

Lemma mapM_preprocess_cached_raise (nlp : Language) (texts : list str) (w : World) :
  _nlp w = Some nlp ->
  (exists text, In text texts /\ is_ok (call nlp (lower ucd text)) = false) ->
  exists e, mapM pre texts w = (Raise e, w).
Proof.
  intros H. induction texts as [|t texts IH]; intros [text [Hin Hraise]]; [contradiction|].
  cbn [mapM]. unfold bind at 1. rewrite (preprocess_text_cached nlp t w H).
  unfold normalize_with.
  destruct (call nlp (lower ucd t)) as [doc|e] eqn:E.
  - destruct Hin as [<-|Hin]; [rewrite E in Hraise; discriminate|].
    destruct IH as [e IHe]; [exists text; split; assumption|].
    unfold bind. rewrite IHe. exists e. reflexivity.
  - exists e. reflexivity.
Qed.

(** X4.  An annotator that is loaded and raises on a text is not
    replaced by the regex path: [preprocess_text] raises the same
    exception, [assess_symptoms] answers with the inference-error
    assessment and logs the exception, and [TriageAI()], if the annotator
    raises on a text of the corpus, ends without a model. *)
Theorem annotator_error_is_not_recovered :
  forall (nlp : Language) (w : World),
    _nlp w = Some nlp ->
    (forall text e,
        call nlp (lower ucd text) = Raise e ->
        pre text w = (Raise e, w)
        /\ forall self m,
            model self = Some m ->
            assess_symptoms ucd ML_AVAILABLE spacy_load self text w
            = (Ok inference_error_assessment,
               mkWorld (_nlp w) (spacy_attempts w)
                 (log w ++ [(ERROR, lit "Error in symptom assessment: " ++ exc_str e)])))
    /\ ((exists text, In text (map fst ALL_TRAINING_DATA)
                      /\ is_ok (call nlp (lower ucd text)) = false) ->
        exists w', TriageAI_init ucd ML_AVAILABLE spacy_load sk_fit w
                   = (Ok (mkTriageAI None f0_6), w')).
Proof.
  intros nlp w H. split.
  - intros text e E.
    assert (P : pre text w = (Raise e, w)).
    { rewrite (preprocess_text_cached nlp text w H). unfold normalize_with.
      rewrite E. reflexivity. }
    split; [exact P|].
    intros self m Hm.
    apply (assess_symptoms_body_raise ucd ML_AVAILABLE spacy_load self m text w w e Hm).
    rewrite assess_body_decompose, P. reflexivity.
  - intros Hraise. rewrite TriageAI_init_run. destruct ML_AVAILABLE; [|eexists; reflexivity].
    destruct (mapM_preprocess_cached_raise nlp _ w H Hraise) as [e E].
    rewrite E. eexists; reflexivity.
Qed.
End AnnotatorPath.

Lemma annotator_error_is_not_recovered_witness :
  preprocess_text Fixture.ascii_ucd Fixture.spacy_missing (lit "Chest pain")
    (Samples.world_with Samples.raising_nlp)
  = (Raise (mkExn ValueError (lit "[E088] Text exceeds maximum length")),
     Samples.world_with Samples.raising_nlp)
  /\ value_of (assess_symptoms Fixture.ascii_ucd true Fixture.spacy_missing
                 Fixture.regex_ai (lit "Chest pain")
                 (Samples.world_with Samples.raising_nlp))
     = Ok inference_error_assessment
  /\ exists w',
       TriageAI_init Fixture.ascii_ucd true Fixture.spacy_missing Fixture.memo_fit
         (Samples.world_with Samples.raising_nlp)
       = (Ok (mkTriageAI None f0_6), w').
Proof.
  destruct (annotator_error_is_not_recovered Fixture.ascii_ucd true Fixture.spacy_missing
              Fixture.memo_fit Samples.raising_nlp
              (Samples.world_with Samples.raising_nlp) eq_refl) as [T1 T2].
  destruct (T1 (lit "Chest pain") (mkExn ValueError (lit "[E088] Text exceeds maximum length"))
              eq_refl) as [P A].
  split; [exact P|]. split.
  - assert (Hm : exists m, model Fixture.regex_ai = Some m)
      by (vm_compute; eexists; reflexivity).
    destruct Hm as [m Hm]. rewrite (A Fixture.regex_ai m Hm). reflexivity.
  - apply T2. exists (lit "I have a mild headache"). split; [left; reflexivity | reflexivity].
Defined.

(* ================================================================== *)
(** ** The shape of an assessment *)
(* ================================================================== *)

Lemma class_recommendation (severity : str) :
  In severity SEVERITY_CLASSES ->
  In (severity, dict_get recommendations severity default_recommendation) recommendations.
Proof.
  unfold SEVERITY_CLASSES. intros H.
  repeat (destruct H as [<-|H]; [vm_compute; tauto|]). contradiction.
Qed.

(** X5.  With a classifier that keeps to its labels, an assessment by the
    orchestrator built by [TriageAI()] is of one of two kinds.  Either it
    is one of the two fixed failure answers, with severity "Unknown" and
    confidence 0.0; or its severity is one of the four classes and its
    recommendation is the paragraph of the table for that class, alone or
    followed by the disclaimer, never the generic paragraph.  In both
    cases the severity fits the column of 20 characters it is stored
    in. *)
Theorem assessment_shape :
  forall ucd ML_AVAILABLE spacy_load sk_fit,
    sklearn_contract sk_fit ->
    forall w0 triage_ai w1,
      TriageAI_init ucd ML_AVAILABLE spacy_load sk_fit w0 = (Ok triage_ai, w1) ->
      forall text w r w',
        assess_symptoms ucd ML_AVAILABLE spacy_load triage_ai text w = (Ok r, w') ->
        (List.length (severity r) <= SEVERITY_COLUMN_LENGTH)%nat
        /\ ((severity r = lit "Unknown" /\ confidence r = Finite 0
             /\ (r = no_model_assessment \/ r = inference_error_assessment))
            \/ (In (severity r) SEVERITY_CLASSES
                /\ exists base,
                    In (severity r, base) recommendations
                    /\ base <> default_recommendation
                    /\ (recommendation r = base \/ recommendation r = base ++ disclaimer))).
Proof.
  intros ucd ML_AVAILABLE spacy_load sk_fit Hsk w0 ai w1 Hinit text w r w' Hrun.
  cut ((severity r = lit "Unknown" /\ confidence r = Finite 0
        /\ (r = no_model_assessment \/ r = inference_error_assessment))
       \/ (In (severity r) SEVERITY_CLASSES
           /\ exists base,
               In (severity r, base) recommendations
               /\ base <> default_recommendation
               /\ (recommendation r = base \/ recommendation r = base ++ disclaimer))).
  { intros D. split; [|exact D].
    destruct D as [[-> _] | [Hc _]]; [vm_compute; lia|].
    unfold SEVERITY_CLASSES in Hc.
    repeat (destruct Hc as [<-|Hc]; [vm_compute; lia|]). contradiction. }
  destruct (model ai) as [m|] eqn:Hm.
  - destruct (assess_symptoms_decompose ucd ML_AVAILABLE spacy_load ai m text w Hm) as [lg E].
    rewrite E in Hrun. injection Hrun as <- _.
    unfold assessment_given.
    destruct (bind_result (fst (get_nlp_model spacy_load w))
                (fun nlp => normalize_with ucd nlp text)) as [pre|e]; cbn [bind_result];
      [|left; repeat split; auto].
    destruct (infer ML_AVAILABLE ai m text pre) as [r|e] eqn:Hi;
      [|left; repeat split; auto].
    right.
    destruct (infer_ok ML_AVAILABLE ai m text pre r Hi)
      as [predicted [row [rows [Hp [_ [_ Hrec]]]]]].
    destruct (TriageAI_init_cases ucd ML_AVAILABLE spacy_load sk_fit w0)
      as [ai' [w1' [Hinit' [_ Hmodel]]]].
    rewrite Hinit in Hinit'. injection Hinit' as <- <-.
    destruct (Hmodel m Hm) as [_ [X Hfit]].
    destruct (Hsk X _ m Hfit) as [Hin _].
    apply Hin in Hp. inversion Hp as [|? ? Hsev _]; subst.
    apply corpus_labels in Hsev. split; [exact Hsev|].
    exists (dict_get recommendations (severity r) default_recommendation).
    split; [apply class_recommendation, Hsev|]. split.
    + unfold SEVERITY_CLASSES in Hsev.
      repeat (destruct Hsev as [<-|Hsev]; [vm_compute; discriminate|]). contradiction.
    + rewrite Hrec. unfold generate_recommendation.
      destruct (flt (confidence r) (confidence_threshold ai)); auto.
  - rewrite (assess_symptoms_no_model ucd ML_AVAILABLE spacy_load ai text w Hm) in Hrun.
    injection Hrun as <- _. left. repeat split; auto.
Qed.

Lemma assessment_shape_witness :
  exists r,
    value_of Fixture.second_call = Ok r
    /\ (List.length (severity r) <= SEVERITY_COLUMN_LENGTH)%nat
    /\ ((severity r = lit "Unknown" /\ confidence r = Finite 0
         /\ (r = no_model_assessment \/ r = inference_error_assessment))
        \/ (In (severity r) SEVERITY_CLASSES
            /\ exists base,
                In (severity r, base) recommendations
                /\ base <> default_recommendation
                /\ (recommendation r = base \/ recommendation r = base ++ disclaimer))).
Proof.
  assert (Hinit : TriageAI_init Fixture.ascii_ucd true Fixture.late_spacy
                    Fixture.memo_fit initial_world
                  = (Ok Fixture.trained_ai, snd Fixture.trained))
    by (vm_compute; reflexivity).
  assert (Hrun : exists r w',
             assess_symptoms Fixture.ascii_ucd true Fixture.late_spacy Fixture.trained_ai
               Fixture.chest_pain (snd Fixture.first_call) = (Ok r, w'))
    by (vm_compute; eexists _, _; reflexivity).
  destruct Hrun as [r [w' Hrun]]. exists r.
  split; [unfold Fixture.second_call; rewrite Hrun; reflexivity|].
  exact (assessment_shape Fixture.ascii_ucd true Fixture.late_spacy Fixture.memo_fit
           memo_fit_contract initial_world Fixture.trained_ai (snd Fixture.trained) Hinit
           Fixture.chest_pain (snd Fixture.first_call) r w' Hrun).
Defined.

(** The first characters of a recommendation are those of its base
    paragraph: every paragraph is longer than 30 characters. *)
Lemma recommendation_head (self : TriageAI) (severity : str) (confidence : float)
    (symptoms : str) :
  firstn 30 (generate_recommendation self severity confidence symptoms)
  = firstn 30 (dict_get recommendations severity default_recommendation).
Proof.
  unfold generate_recommendation.
  destruct (flt confidence (confidence_threshold self)); [|reflexivity].
  pose proof (base_recommendation_cases severity) as H.
  destruct (dict_get recommendations severity default_recommendation) eqn:E;
    simpl in H;
    repeat (destruct H as [H|H]; [rewrite <- H; reflexivity|]); contradiction.
Qed.

(** X6.  The recommendation tells the severity class: two
    recommendations generated for classes of the table are equal only if
    the classes are, whatever the confidences and the symptoms. *)
Theorem recommendation_determines_severity :
  forall self s1 s2 c1 c2 t1 t2,
    In s1 SEVERITY_CLASSES -> In s2 SEVERITY_CLASSES ->
    generate_recommendation self s1 c1 t1 = generate_recommendation self s2 c2 t2 ->
    s1 = s2.
Proof.
  intros self s1 s2 c1 c2 t1 t2 H1 H2 E.
  apply (f_equal (firstn 30)) in E. rewrite !recommendation_head in E.
  unfold SEVERITY_CLASSES in H1, H2.
  repeat (destruct H1 as [<-|H1]; [|]); try contradiction;
    repeat (destruct H2 as [<-|H2]; [|]); try contradiction;
    try reflexivity; vm_compute in E; discriminate E.
Qed.

Lemma recommendation_determines_severity_witness :
  generate_recommendation (mkTriageAI None f0_6) (lit "High") (Finite (1#2)) (lit "Chest pain")
  = generate_recommendation (mkTriageAI None f0_6) (lit "High") (Finite (1#3)) (lit "Fever")
  /\ lit "High" = lit "High".
Proof.
  assert (E : generate_recommendation (mkTriageAI None f0_6) (lit "High") (Finite (1#2))
                (lit "Chest pain")
              = generate_recommendation (mkTriageAI None f0_6) (lit "High") (Finite (1#3))
                  (lit "Fever")) by reflexivity.
  split; [exact E|].
  apply (recommendation_determines_severity (mkTriageAI None f0_6) (lit "High") (lit "High")
           (Finite (1#2)) (Finite (1#3)) (lit "Chest pain") (lit "Fever")).
  - simpl; tauto.
  - simpl; tauto.
  - exact E.
Defined.

(* ================================================================== *)
(** ** The regex path on ASCII text *)
(* ================================================================== *)

Lemma ascii_lower_facts (c : codepoint) :
  is_ascii c = true ->
  is_ascii (ascii_lower c) = true
  /\ in_range 65 90 (ascii_lower c) = false
  /\ ascii_lower (ascii_lower c) = ascii_lower c.
Proof.
  unfold is_ascii, ascii_lower, in_range. intros H. apply N.ltb_lt in H.
  destruct (N.leb_spec 65 c), (N.leb_spec c 90); cbn [andb];
    repeat match goal with
           | |- context [N.leb ?a ?b] => destruct (N.leb_spec a b)
           | |- context [N.ltb ?a ?b] => destruct (N.ltb_spec a b)
           end; cbn [andb]; repeat split; try reflexivity; try lia.
Qed.

Lemma filter_all {A} (f : A -> bool) (l : list A) :
  Forall (fun x => f x = true) l -> filter f l = l.
Proof.
  induction 1 as [|x l Hx _ IH]; [reflexivity|]. cbn [filter]. rewrite Hx, IH. reflexivity.
Qed.

Lemma filter_length_le {A} (f : A -> bool) (l : list A) :
  (List.length (filter f l) <= List.length l)%nat.
Proof.
  induction l as [|x l IH]; [apply Nat.le_refl|]. cbn [filter].
  destruct (f x); cbn [List.length]; lia.
Qed.

(** X7.  On ASCII text the regex path is idempotent, never lengthens the
    text, and returns ASCII text without capital letters. *)
Theorem regex_path_on_ascii :
  forall (ucd : UnicodeDB) (text t : str),
    forallb is_ascii text = true ->
    normalize_with ucd None text = Ok t ->
    normalize_with ucd None t = Ok t
    /\ (List.length t <= List.length text)%nat
    /\ Forall (fun c => is_ascii c = true /\ in_range 65 90 c = false) t.
Proof.
  intros ucd text t Hascii E. cbn [normalize_with] in *. injection E as <-.
  rewrite !regex_path_meets_spec. unfold normalize_regex_spec.
  assert (L : lower ucd text = map ascii_lower text)
    by apply (lower_from_ascii ucd [] text Hascii).
  rewrite !L.
  set (keep := fun c => is_word ucd c || is_space ucd c).
  assert (F : Forall (fun c => is_ascii c = true /\ in_range 65 90 c = false
                               /\ ascii_lower c = c /\ keep c = true)
                (filter keep (map ascii_lower text))).
  { apply Forall_forall. intros c Hc. apply filter_In in Hc. destruct Hc as [Hc Hk].
    apply in_map_iff in Hc. destruct Hc as [c0 [<- Hc0]].
    rewrite forallb_forall in Hascii.
    destruct (ascii_lower_facts c0 (Hascii c0 Hc0)) as [A1 [A2 A3]]. auto. }
  split; [|split].
  - f_equal. unfold lower.
    rewrite (lower_from_ascii ucd [] (filter keep (map ascii_lower text))).
    + rewrite (map_ext_in ascii_lower (fun c => c)).
      * rewrite map_id. apply filter_all.
        eapply Forall_impl; [|exact F]. intros c Hc; apply Hc.
      * intros c Hc. rewrite Forall_forall in F. apply (F c Hc).
    + apply forallb_forall. intros c Hc. rewrite Forall_forall in F. apply (F c Hc).
  - rewrite <- (length_map ascii_lower text). apply filter_length_le.
  - eapply Forall_impl; [|exact F]. intros c Hc. split; apply Hc.
Qed.

Lemma regex_path_on_ascii_witness :
  normalize_with Fixture.ascii_ucd None (lit "i have a headache") = Ok (lit "i have a headache")
  /\ (List.length (lit "i have a headache") <= List.length (lit "I HAVE a Headache!!"))%nat.
Proof.
  destruct (regex_path_on_ascii Fixture.ascii_ucd (lit "I HAVE a Headache!!")
              (lit "i have a headache") eq_refl eq_refl) as [T1 [T2 _]].
  split; [exact T1 | exact T2].
Defined.

(* ================================================================== *)
(** ** Phone numbers *)
(* ================================================================== *)

Section PhoneFacts.
Variable uni_isdigit : codepoint -> bool.

Local Abbreviation digit := (isdigit uni_isdigit).
Local Abbreviation fmt := (format_phone_number uni_isdigit).

Lemma filter_idem {A} (f : A -> bool) (l : list A) : filter f (filter f l) = filter f l.
Proof.
  apply filter_all, Forall_forall. intros x Hx. apply filter_In in Hx. apply Hx.
Qed.

Lemma firstn_In {A} (n : nat) (l : list A) (x : A) : In x (firstn n l) -> In x l.
Proof.
  intros H. rewrite <- (firstn_skipn n l). apply in_or_app. left; exact H.
Qed.

Lemma In_skipn {A} (n : nat) (l : list A) (x : A) : In x (skipn n l) -> In x l.
Proof.
  intros H. rewrite <- (firstn_skipn n l). apply in_or_app. right; exact H.
Qed.

Lemma filter_digits_firstn (n : nat) (l : str) :
  filter digit (firstn n (filter digit l)) = firstn n (filter digit l).
Proof.
  apply filter_all, Forall_forall. intros x Hx. apply firstn_In, filter_In in Hx. apply Hx.
Qed.

Lemma filter_digits_skipn (n : nat) (l : str) :
  filter digit (skipn n (filter digit l)) = skipn n (filter digit l).
Proof.
  apply filter_all, Forall_forall. intros x Hx. apply In_skipn, filter_In in Hx. apply Hx.
Qed.

Lemma filter_digits_slice (n k : nat) (l : str) :
  filter digit (firstn n (skipn k (filter digit l))) = firstn n (skipn k (filter digit l)).
Proof.
  apply filter_all, Forall_forall. intros x Hx.
  apply firstn_In, In_skipn, filter_In in Hx. apply Hx.
Qed.

(** The digits of the text built around three groups are the groups. *)
Lemma digits_of_layout (a b c : str) :
  filter digit a = a -> filter digit b = b -> filter digit c = c ->
  filter digit (lit "(" ++ a ++ lit ") " ++ b ++ lit "-" ++ c) = a ++ b ++ c.
Proof.
  intros Ha Hb Hc. rewrite !filter_app, Ha, Hb, Hc. reflexivity.
Qed.

Lemma three_groups (k : nat) (l : str) :
  firstn 3 (skipn k l) ++ firstn 3 (skipn (k + 3) l) ++ skipn (k + 6) l = skipn k l.
Proof.
  pose proof (firstn_skipn 3 (skipn k l)) as E1.
  pose proof (firstn_skipn 3 (skipn (k + 3) l)) as E2.
  rewrite skipn_skipn in E1, E2.
  replace (3 + k)%nat with (k + 3)%nat in E1 by lia.
  replace (3 + (k + 3))%nat with (k + 6)%nat in E2 by lia.
  rewrite E2. exact E1.
Qed.

(** The digits of the result: those of the input, less the leading 1 of
    an eleven-digit number. *)
Lemma format_phone_number_digits (phone : str) :
  filter digit (fmt (Some phone))
  = let nums := filter digit phone in
    if Nat.eqb (List.length nums) 11
       && match nums with c :: _ => N.eqb c (ord "1") | [] => false end
    then skipn 1 nums else nums.
Proof.
  cbv zeta. unfold format_phone_number.
  destruct phone as [|p0 phone]; [reflexivity|].
  set (nums := filter digit (p0 :: phone)).
  destruct (Nat.eqb (List.length nums) 10) eqn:E10.
  - apply Nat.eqb_eq in E10. rewrite E10. cbn [Nat.eqb andb].
    unfold slice, slice_from. cbn [Nat.sub].
    rewrite digits_of_layout.
    + exact (three_groups 0 nums).
    + apply (filter_digits_slice 3 0 (p0 :: phone)).
    + apply (filter_digits_slice 3 3 (p0 :: phone)).
    + apply (filter_digits_skipn 6 (p0 :: phone)).
  - destruct (Nat.eqb (List.length nums) 11
              && match nums with c :: _ => N.eqb c (ord "1") | [] => false end);
      [|reflexivity].
    unfold slice, slice_from. cbn [Nat.sub].
    rewrite digits_of_layout.
    + exact (three_groups 1 nums).
    + apply (filter_digits_slice 3 1 (p0 :: phone)).
    + apply (filter_digits_slice 3 4 (p0 :: phone)).
    + apply (filter_digits_skipn 7 (p0 :: phone)).
Qed.

(** The cases of [format_phone_number]. *)
Lemma format_phone_number_cases :
  forall (phone : str),
    let nums := filter digit phone in
    let national :=
      if Nat.eqb (List.length nums) 11
         && match nums with c :: _ => N.eqb c (ord "1") | [] => false end
      then skipn 1 nums else nums in
    filter digit (fmt (Some phone)) = national
    /\ (List.length national = 10%nat ->
        fmt (Some phone)
        = lit "(" ++ firstn 3 national ++ lit ") " ++ firstn 3 (skipn 3 national)
            ++ lit "-" ++ skipn 6 national
        /\ List.length (fmt (Some phone)) = 14%nat)
    /\ (List.length national <> 10%nat -> fmt (Some phone) = phone)
    /\ fmt None = [] /\ fmt (Some []) = [].
Proof.
  intros phone nums national.
  split; [apply format_phone_number_digits|].
  split; [|split; [|split; reflexivity]].
  - subst national. unfold format_phone_number.
    destruct phone as [|p0 phone]; [discriminate|]. fold nums.
    destruct (Nat.eqb (List.length nums) 10) eqn:E10.
    + apply Nat.eqb_eq in E10. rewrite E10. cbn [Nat.eqb andb]. intros _.
      unfold slice, slice_from. cbn [Nat.sub]. split; [reflexivity|].
      rewrite !length_app, !length_firstn, !length_skipn, E10. reflexivity.
    + destruct (Nat.eqb (List.length nums) 11
                && match nums with c :: _ => N.eqb c (ord "1") | [] => false end) eqn:E11.
      * intros Hlen. unfold slice, slice_from. cbn [Nat.sub].
        rewrite !skipn_skipn. cbn [Nat.add]. split; [reflexivity|].
        rewrite length_skipn in Hlen.
        rewrite !length_app, !length_firstn, !length_skipn. cbn [List.length lit]. lia.
      * intros Hlen. apply Nat.eqb_neq in E10. contradiction.
  - subst national. unfold format_phone_number.
    destruct phone as [|p0 phone]; [reflexivity|]. fold nums.
    destruct (Nat.eqb (List.length nums) 10) eqn:E10.
    + apply Nat.eqb_eq in E10. rewrite E10. cbn [Nat.eqb andb]. intros H. contradiction.
    + destruct (Nat.eqb (List.length nums) 11
                && match nums with c :: _ => N.eqb c (ord "1") | [] => false end) eqn:E11;
        [|reflexivity].
      apply andb_true_iff in E11. destruct E11 as [E11 _]. apply Nat.eqb_eq in E11.
      intros H. exfalso. apply H. rewrite length_skipn, E11. reflexivity.
Qed.

(** X11.  [format_phone_number] keeps the digits: the digits of its
    result are the digits of the number it was given, in order, less the
    leading 1 when there are eleven of them.  A number with ten digits,
    or eleven with a leading 1, comes out as 14 characters; any other
    number comes out unchanged, and [None] and the empty string give the
    empty string. *)
Theorem format_phone_number_keeps_digits :
  forall (phone : str),
    let nums := filter digit phone in
    let national :=
      if Nat.eqb (List.length nums) 11
         && match nums with c :: _ => N.eqb c (ord "1") | [] => false end
      then skipn 1 nums else nums in
    filter digit (fmt (Some phone)) = national
    /\ (List.length national = 10%nat ->
        fmt (Some phone)
        = lit "(" ++ firstn 3 national ++ lit ") " ++ firstn 3 (skipn 3 national)
            ++ lit "-" ++ skipn 6 national
        /\ List.length (fmt (Some phone)) = 14%nat)
    /\ (List.length national <> 10%nat -> fmt (Some phone) = phone)
    /\ fmt None = [] /\ fmt (Some []) = [].
Proof. exact format_phone_number_cases. Qed.

(** X12.  Formatting a formatted number changes nothing. *)
Theorem format_phone_number_idempotent :
  forall (phone : option str), fmt (Some (fmt phone)) = fmt phone.
Proof.
  intros [phone|]; [|reflexivity].
  destruct (format_phone_number_cases phone) as [Hd [H10 [Hother _]]].
  cbv zeta in *.
  set (national := if Nat.eqb (List.length (filter digit phone)) 11
                      && match filter digit phone with
                         | c :: _ => N.eqb c (ord "1")
                         | [] => false
                         end
                   then skipn 1 (filter digit phone) else filter digit phone) in *.
  destruct (Nat.eq_dec (List.length national) 10) as [E|E].
  - destruct (H10 E) as [Hfmt _].
    destruct (format_phone_number_cases (fmt (Some phone))) as [Hd' [H10' _]].
    cbv zeta in *. rewrite Hd in *.
    assert (N11 : Nat.eqb (List.length national) 11 = false) by (rewrite E; reflexivity).
    rewrite N11 in *. cbn [andb] in *.
    destruct (H10' E) as [Hfmt' _]. rewrite Hfmt'. symmetry. exact Hfmt.
  - rewrite (Hother E).
    destruct (format_phone_number_cases phone) as [_ [_ [Hother' _]]].
    apply Hother'. exact E.
Qed.
End PhoneFacts.

Lemma format_phone_number_keeps_digits_witness :
  format_phone_number Samples.ascii_digits (Some (lit "+1 555.867.5309"))
  = lit "(555) 867-5309"
  /\ List.length (format_phone_number Samples.ascii_digits (Some (lit "+1 555.867.5309")))
     = 14%nat
  /\ format_phone_number Samples.ascii_digits (Some (lit "ext. 42")) = lit "ext. 42".
Proof.
  destruct (format_phone_number_keeps_digits Samples.ascii_digits (lit "+1 555.867.5309"))
    as [_ [T _]].
  destruct (format_phone_number_keeps_digits Samples.ascii_digits (lit "ext. 42"))
    as [_ [_ [U _]]].
  cbv zeta in T, U.
  destruct (T eq_refl) as [T1 T2].
  split; [rewrite T1; reflexivity|]. split; [exact T2|].
  apply U. vm_compute. discriminate.
Defined.

(* ================================================================== *)
(** ** Ages and dates *)
(* ================================================================== *)


Lemma tuple_lt_iff (a b : Z * Z) :
  tuple_lt a b = true <-> (fst a < fst b \/ (fst a = fst b /\ snd a < snd b))%Z.
Proof.
  unfold tuple_lt. rewrite orb_true_iff, andb_true_iff, !Z.ltb_lt, Z.eqb_eq. tauto.
Qed.

Lemma date_lt_iff (a b : date) : date_lt a b = true <-> before a b.
Proof.
  unfold date_lt, before.
  rewrite orb_true_iff, andb_true_iff, tuple_lt_iff, Z.ltb_lt, Z.eqb_eq. cbn [fst snd]. tauto.
Qed.

Lemma date_le_iff (a b : date) : date_le a b = true <-> ~ before b a.
Proof.
  unfold date_le. rewrite negb_true_iff, <- date_lt_iff.
  destruct (date_lt b a); split; intros H;
    try reflexivity; try discriminate;
    try (intros H'; discriminate); try (exfalso; apply H; reflexivity).
Qed.

(** The two values [age] can take. *)
Lemma age_cases (today date_of_birth : date) :
  (age today date_of_birth = year today - year date_of_birth - 1
   /\ (month today < month date_of_birth
       \/ (month today = month date_of_birth /\ day today < day date_of_birth)))%Z
  \/ (age today date_of_birth = year today - year date_of_birth
      /\ ~ (month today < month date_of_birth
            \/ (month today = month date_of_birth /\ day today < day date_of_birth)))%Z.
Proof.
  unfold age.
  destruct (tuple_lt (month today, day today) (month date_of_birth, day date_of_birth)) eqn:E.
  - left. apply tuple_lt_iff in E. cbn [fst snd int_of_bool] in *. split; [lia | exact E].
  - right. cbn [int_of_bool]. split; [lia|].
    intros H. apply (tuple_lt_iff (month today, day today)
                       (month date_of_birth, day date_of_birth)) in H.
    congruence.
Qed.

Ltac dates :=
  repeat match goal with
         | H : date_le _ _ = true |- _ => apply date_le_iff in H
         | H : date_lt _ _ = true |- _ => apply date_lt_iff in H
         | |- date_le _ _ = true => apply date_le_iff
         | |- date_lt _ _ = true => apply date_lt_iff
         end;
  unfold before, add_years in *; cbn [year month day] in *.

(** X13.  [Patient.age()] is the number of birthdays passed: the birthday
    of that age is not after today, the next one is, and no other
    integer has both properties. *)
Theorem age_counts_birthdays :
  forall (today date_of_birth : date),
    date_le (add_years date_of_birth (age today date_of_birth)) today = true
    /\ date_lt today (add_years date_of_birth (age today date_of_birth + 1)) = true
    /\ forall n : Z,
        date_le (add_years date_of_birth n) today = true ->
        date_lt today (add_years date_of_birth (n + 1)) = true ->
        n = age today date_of_birth.
Proof.
  intros today dob. pose proof (age_cases today dob) as A.
  split; [|split].
  - dates. lia.
  - dates. lia.
  - intros n H1 H2. dates. lia.
Qed.

Lemma age_counts_birthdays_witness :
  age Samples.today Samples.born = 33%Z.
Proof.
  symmetry.
  apply (proj2 (proj2 (age_counts_birthdays Samples.today Samples.born)) 33%Z);
    reflexivity.
Defined.

(** X14.  A date of birth that [validate_date_of_birth] accepted gives an
    age that is never negative on that day or later, and the age never
    decreases as the days pass. *)
Theorem age_of_validated_birth_date :
  forall (validated_on today later date_of_birth : date),
    validate_date_of_birth validated_on date_of_birth = Ok tt ->
    date_le validated_on today = true ->
    date_le today later = true ->
    (0 <= age today date_of_birth <= age later date_of_birth)%Z.
Proof.
  intros v today later dob Hv H1 H2.
  assert (H0 : date_le dob v = true).
  { unfold validate_date_of_birth in Hv. unfold date_le.
    destruct (date_lt v dob); [discriminate | reflexivity]. }
  pose proof (age_cases today dob) as A. pose proof (age_cases later dob) as B.
  dates. lia.
Qed.

Lemma age_of_validated_birth_date_witness :
  (0 <= age (mkDate 2024 7 3) Samples.born <= age (mkDate 2024 7 4) Samples.born)%Z
  /\ age (mkDate 2024 7 3) Samples.born = 33%Z
  /\ age (mkDate 2024 7 4) Samples.born = 34%Z.
Proof.
  split; [|split; reflexivity].
  apply (age_of_validated_birth_date Samples.today (mkDate 2024 7 3) (mkDate 2024 7 4)
           Samples.born); reflexivity.
Defined.

(* ================================================================== *)
(** ** Failed loads and malformed answers *)
(* ================================================================== *)

Section Retries.
Variable spacy_load : nat -> result Language.

(** X8.  A failed load is not remembered: while the annotator cannot be
    loaded, each call of [get_nlp_model] attempts the load again, returns
    [None] and logs one more warning. *)
Theorem failed_load_is_retried :
  forall (n : nat) (w : World),
    _nlp w = None ->
    spacy_unavailable_from spacy_load w ->
    exists warnings,
      get_nlp_model_calls spacy_load n w
      = (repeat (Ok None) n,
         mkWorld None (spacy_attempts w + n) (log w ++ warnings))
      /\ List.length warnings = n
      /\ Forall (fun record => fst record = WARNING) warnings.
Proof.
  induction n as [|n IH]; intros w H U.
  - exists []. destruct w as [c k l]. cbn in *. subst c.
    rewrite Nat.add_0_r, app_nil_r. repeat split. constructor.
  - cbn [get_nlp_model_calls repeat].
    destruct (spacy_load (spacy_attempts w)) as [m|e] eqn:L.
    { specialize (U (spacy_attempts w) (Nat.le_refl _)). rewrite L in U. discriminate. }
    rewrite (get_nlp_model_load_fail spacy_load w e H L).
    destruct (IH (mkWorld None (S (spacy_attempts w))
                    (log w ++ [(WARNING, load_failure_warning e)])))
      as [warnings [E [Hlen Hall]]].
    + reflexivity.
    + intros i Hi. apply U. cbn [spacy_attempts] in Hi. lia.
    + rewrite E. cbn [spacy_attempts log].
      exists ((WARNING, load_failure_warning e) :: warnings).
      rewrite <- app_assoc. cbn [app].
      replace (S (spacy_attempts w) + n)%nat with (spacy_attempts w + S n)%nat by lia.
      split; [reflexivity|]. split; [cbn; lia | constructor; [reflexivity | exact Hall]].
Qed.
End Retries.

Lemma failed_load_is_retried_witness :
  exists warnings,
    get_nlp_model_calls Fixture.spacy_missing 3 initial_world
    = (repeat (Ok None) 3,
       mkWorld None (spacy_attempts initial_world + 3) (log initial_world ++ warnings))
    /\ List.length warnings = 3%nat
    /\ Forall (fun record => fst record = WARNING) warnings.
Proof.
  apply (failed_load_is_retried Fixture.spacy_missing 3 initial_world).
  - reflexivity.
  - intros i _. reflexivity.
Defined.

Lemma fold_fmax_NaN (l : list float) : fold_left fmax l NaN = NaN.
Proof. induction l as [|a l IH]; [reflexivity|]. cbn [fold_left fmax]. exact IH. Qed.

Lemma fold_fmax_with_NaN (l : list float) (a : float) :
  In NaN l -> fold_left fmax l a = NaN.
Proof.
  revert a; induction l as [|b l IH]; intros a; [contradiction|].
  intros [->|H]; cbn [fold_left].
  - destruct a; cbn [fmax]; apply fold_fmax_NaN.
  - apply IH, H.
Qed.

Section Malformed.
Variable ucd : UnicodeDB.
Variable spacy_load : nat -> result Language.

(** X9.  With the libraries imported, a classifier that answers with an
    empty array of predictions, an empty batch of rows or an empty row is
    taken as an inference error: the assessment is the fixed one with
    severity "Unknown" and confidence 0.0. *)
Theorem empty_answers_are_inference_errors :
  forall (self : TriageAI) (m : Pipeline) (text pre : str) (w w' : World),
    model self = Some m ->
    preprocess_text ucd spacy_load text w = (Ok pre, w') ->
    predict m [pre] = Ok []
    \/ (exists predicted, predict m [pre] = Ok predicted)
       /\ (predict_proba m [pre] = Ok []
           \/ exists rows, predict_proba m [pre] = Ok ([] :: rows)) ->
    value_of (assess_symptoms ucd true spacy_load self text w)
    = Ok inference_error_assessment.
Proof.
  intros self m text pre w w' Hm Hpre H.
  assert (B : exists e, assess_body ucd true spacy_load self m text w = (Raise e, w')).
  { rewrite assess_body_decompose, Hpre. cbn [fst snd bind_result]. unfold infer.
    destruct H as [Hp | [[predicted Hp] [Hq | [rows Hq]]]]; rewrite Hp.
    - eexists; reflexivity.
    - destruct predicted; cbn [index0 bind_result]; [eexists; reflexivity|].
      rewrite Hq. eexists; reflexivity.
    - destruct predicted; cbn [index0 bind_result]; [eexists; reflexivity|].
      rewrite Hq. eexists; reflexivity. }
  destruct B as [e B].
  rewrite (assess_symptoms_body_raise ucd true spacy_load self m text w w' e Hm B).
  reflexivity.
Qed.

(** X10.  A NaN among the probabilities becomes the confidence, and a
    NaN confidence is not below the threshold: the assessment carries the
    predicted severity, confidence NaN and the paragraph of the table
    without the disclaimer. *)
Theorem nan_confidence_has_no_disclaimer :
  forall (self : TriageAI) (m : Pipeline) (text pre : str) (w w' : World)
         (sev : str) (predicted : list str) (row : list float) (rows : list (list float)),
    model self = Some m ->
    preprocess_text ucd spacy_load text w = (Ok pre, w') ->
    predict m [pre] = Ok (sev :: predicted) ->
    predict_proba m [pre] = Ok (row :: rows) ->
    In NaN row ->
    assess_symptoms ucd true spacy_load self text w
    = (Ok (mkAssessment sev (dict_get recommendations sev default_recommendation) NaN), w')
    /\ contains (dict_get recommendations sev default_recommendation) disclaimer = false.
Proof.
  intros self m text pre w w' sev predicted row rows Hm Hpre Hp Hq Hnan. split.
  - apply (assess_symptoms_body_ok ucd true spacy_load self m); [exact Hm|].
    rewrite assess_body_decompose, Hpre. cbn [fst snd bind_result]. unfold infer.
    rewrite Hp, Hq. cbn [index0 bind_result].
    destruct row as [|a row]; [contradiction|]. cbn [np_max bind_result].
    assert (E : fold_left fmax row a = NaN).
    { destruct Hnan as [->|Hin]; [apply fold_fmax_NaN | apply fold_fmax_with_NaN, Hin]. }
    rewrite E. reflexivity.
  - apply base_recommendation_no_disclaimer, base_recommendation_cases.
Qed.
End Malformed.

Lemma empty_answers_are_inference_errors_witness :
  value_of (assess_symptoms Fixture.ascii_ucd true Fixture.spacy_missing
              (mkTriageAI (Some Samples.empty_pipeline) f0_6) (lit "Chest pain")
              initial_world)
  = Ok inference_error_assessment.
Proof.
  eapply (empty_answers_are_inference_errors Fixture.ascii_ucd Fixture.spacy_missing
            (mkTriageAI (Some Samples.empty_pipeline) f0_6) Samples.empty_pipeline
            (lit "Chest pain")).
  - reflexivity.
  - vm_compute. reflexivity.
  - left. reflexivity.
Defined.

Lemma nan_confidence_has_no_disclaimer_witness :
  value_of (assess_symptoms Fixture.ascii_ucd true Fixture.spacy_missing
              (mkTriageAI (Some Samples.nan_pipeline) f0_6) (lit "Chest pain")
              initial_world)
  = Ok (mkAssessment (lit "High")
          (dict_get recommendations (lit "High") default_recommendation) NaN).
Proof.
  destruct (nan_confidence_has_no_disclaimer Fixture.ascii_ucd Fixture.spacy_missing
              (mkTriageAI (Some Samples.nan_pipeline) f0_6) Samples.nan_pipeline
              (lit "Chest pain") (lit "chest pain") initial_world
              (mkWorld None 1
                 [(WARNING, lit "spaCy model not found. Using simple tokenization instead.")])
              (lit "High") [] [NaN; NaN; NaN; NaN] []) as [T _].
  - reflexivity.
  - vm_compute. reflexivity.
  - reflexivity.
  - reflexivity.
  - left. reflexivity.
  - rewrite T. reflexivity.
Defined.

(* ================================================================== *)
(** ** Directory sizes *)
(* ================================================================== *)

(** Induction on a directory, with the property at hand for every
    sub-directory. *)
Lemma Dir_induction (P : Dir -> Prop) :
  (forall files subdirs,
      Forall (fun entry => P (snd entry)) subdirs -> P (mkDir files subdirs)) ->
  forall d, P d.
Proof.
  intros step. fix IH 1. intros [files subdirs]. apply step.
  induction subdirs as [|[name sub] rest IHrest]; constructor.
  - apply IH.
  - exact IHrest.
Qed.

Section Sizes.
Variable keep : str -> bool.
Local Open Scope Z_scope.

Local Abbreviation total_of :=
  (fold_left (fun total (step : path * list (str * option Z)) =>
                fold_left add_file_size (snd step) total)).

Lemma files_total (files : list (str * option Z)) (acc : Z) :
  fold_left add_file_size files acc = (acc + Zsum (readable_sizes files))%Z.
Proof.
  revert acc; induction files as [|[name [size|]] files IH]; intros acc;
    cbn [fold_left readable_sizes flat_map Zsum fold_right app snd add_file_size].
  - lia.
  - rewrite IH. unfold Zsum, readable_sizes. lia.
  - rewrite IH. unfold Zsum, readable_sizes. lia.
Qed.

Lemma total_of_acc (steps : list (path * list (str * option Z))) (acc : Z) :
  total_of steps acc = (acc + total_of steps 0)%Z.
Proof.
  revert acc; induction steps as [|step steps IH]; intros acc; cbn [fold_left]; [lia|].
  rewrite IH, (IH (fold_left add_file_size (snd step) 0%Z)), !files_total. lia.
Qed.

Lemma total_of_app (a b : list (path * list (str * option Z))) :
  total_of (a ++ b) 0 = (total_of a 0 + total_of b 0)%Z.
Proof. rewrite fold_left_app. apply total_of_acc. Qed.

Lemma total_of_files (a b : list (path * list (str * option Z))) :
  map snd a = map snd b -> total_of a 0 = total_of b 0.
Proof.
  generalize 0%Z. revert b; induction a as [|x a IH]; intros [|y b] acc E;
    try discriminate; [reflexivity|].
  cbn [map] in E. injection E as E1 E2. cbn [fold_left]. rewrite E1. apply IH, E2.
Qed.

(** The files the walk meets do not depend on where it starts. *)
Lemma walk_files (d : Dir) :
  forall r r', map snd (walk keep r d) = map snd (walk keep r' d).
Proof.
  induction d as [files subdirs IH] using Dir_induction. intros r r'.
  cbn [walk map snd]. f_equal.
  induction subdirs as [|[name sub] rest IHrest]; [reflexivity|].
  cbn [flat_map]. rewrite !map_app. inversion IH as [|? ? Hsub Hrest]; subst.
  f_equal; [|apply IHrest, Hrest].
  destruct (keep name); [apply Hsub | reflexivity].
Qed.

Lemma total_of_walk (files : list (str * option Z)) (subdirs : list (str * Dir)) (r : path) :
  total_of (walk keep r (mkDir files subdirs)) 0
  = (Zsum (readable_sizes files)
     + Zsum (map (fun entry =>
                    if keep (fst entry) then total_of (walk keep [] (snd entry)) 0 else 0)
                 subdirs))%Z.
Proof.
  cbn [walk fold_left snd]. rewrite total_of_acc, files_total. f_equal.
  induction subdirs as [|[name sub] rest IH]; [reflexivity|].
  cbn [flat_map map Zsum fold_right fst snd]. rewrite total_of_app. fold (Zsum
    (map (fun entry => if keep (fst entry) then total_of (walk keep [] (snd entry)) 0 else 0)
         rest)).
  rewrite IH. f_equal.
  destruct (keep name); [|reflexivity].
  apply total_of_files, walk_files.
Qed.
End Sizes.

Lemma exclude_or_default_idem (exclude : option (list str)) :
  exclude_or_default (Some (exclude_or_default exclude)) = exclude_or_default exclude.
Proof. destruct exclude as [[|x l]|]; reflexivity. Qed.

(** X15.  The size [_get_dir_size_bytes] returns for a directory is the
    sum of the sizes of its files that can be read and of the sizes it
    returns for the sub-directories whose names are not excluded; an
    excluded name removes the whole sub-tree, at any depth.  Without a
    list of exclusions, or with an empty one, the default list
    applies. *)
Theorem dir_size_equation :
  forall (files : list (str * option Z)) (subdirs : list (str * Dir))
         (exclude : option (list str)),
    _get_dir_size_bytes (mkDir files subdirs) exclude
    = (Zsum (readable_sizes files)
       + Zsum (map (fun entry =>
                      if is_in (fst entry) (exclude_or_default exclude) then 0
                      else _get_dir_size_bytes (snd entry)
                             (Some (exclude_or_default exclude)))
                   subdirs))%Z
    /\ _get_dir_size_bytes (mkDir files subdirs) (Some [])
       = _get_dir_size_bytes (mkDir files subdirs) None
    /\ _get_dir_size_bytes (mkDir files subdirs) None
       = _get_dir_size_bytes (mkDir files subdirs) (Some DEFAULT_EXCLUDE).
Proof.
  intros files subdirs exclude. split; [|split; reflexivity].
  unfold _get_dir_size_bytes. cbv zeta. rewrite exclude_or_default_idem.
  rewrite total_of_walk. f_equal. f_equal.
  apply map_ext. intros [name sub]. cbn [fst snd].
  destruct (is_in name (exclude_or_default exclude)); reflexivity.
Qed.

Lemma dict_add_sum (d : list (path * Z)) (key : path) (v : Z) :
  Zsum (map snd (dict_add d key v)) = (Zsum (map snd d) + v)%Z.
Proof.
  induction d as [|[k x] d IH]; cbn [dict_add map snd Zsum fold_right]; [lia|].
  destruct (path_eqb k key); cbn [map snd Zsum fold_right].
  - fold (Zsum (map snd d)). lia.
  - fold (Zsum (map snd (dict_add d key v))). fold (Zsum (map snd d)). rewrite IH. lia.
Qed.

Section Report.
Local Open Scope Z_scope.
Local Abbreviation scan :=
  (fold_left
     (fun (state : Z * list (path * Z)) (step : path * list (str * option Z)) =>
        fold_left (fun state (f : str * option Z) =>
                     match snd f with
                     | Some size => ((fst state + size)%Z, dict_add (snd state) (fst step) size)
                     | None => state
                     end) (snd step) state)).

Lemma scan_files (key : path) (files : list (str * option Z)) (state : Z * list (path * Z)) :
  let state' :=
    fold_left (fun state (f : str * option Z) =>
                 match snd f with
                 | Some size => ((fst state + size)%Z, dict_add (snd state) key size)
                 | None => state
                 end) files state in
  fst state' = fold_left add_file_size files (fst state)
  /\ (Zsum (map snd (snd state')) - fst state' = Zsum (map snd (snd state)) - fst state)%Z.
Proof.
  revert state; induction files as [|[name [size|]] files IH]; intros state; cbv zeta.
  - cbn [fold_left]. split; reflexivity.
  - cbn [fold_left snd]. destruct (IH ((fst state + size)%Z, dict_add (snd state) key size))
      as [I1 I2]. cbv zeta in I1, I2. cbn [fst snd] in I1, I2.
    rewrite dict_add_sum in I2. cbn [add_file_size snd].
    split; [exact I1 | lia].
  - cbn [fold_left snd]. apply IH.
Qed.

Lemma scan_steps (steps : list (path * list (str * option Z))) (state : Z * list (path * Z)) :
  fst (scan steps state)
  = fold_left (fun total step => fold_left add_file_size (snd step) total) steps (fst state)
  /\ (Zsum (map snd (snd (scan steps state))) - fst (scan steps state)
      = Zsum (map snd (snd state)) - fst state)%Z.
Proof.
  revert state; induction steps as [|step steps IH]; intros state.
  - cbn [fold_left]. split; reflexivity.
  - cbn [fold_left]. destruct (scan_files (fst step) (snd step) state) as [F1 F2].
    cbv zeta in F1, F2.
    match goal with
    | |- context [scan steps ?s] => destruct (IH s) as [I1 I2]
    end.
    split; [rewrite I1, F1; reflexivity | lia].
Qed.

(** X16.  The total [get_sizes] returns is the sum of the sizes it
    reports per directory, and it is the size [_get_dir_size_bytes]
    returns for the same exclusions. *)
Theorem get_sizes_total :
  forall (base_path : Dir) (exclude : list str),
    fst (get_sizes base_path exclude) = Zsum (map snd (snd (get_sizes base_path exclude)))
    /\ (exclude <> [] ->
        fst (get_sizes base_path exclude) = _get_dir_size_bytes base_path (Some exclude))
    /\ fst (get_sizes base_path DEFAULT_EXCLUDE) = _get_dir_size_bytes base_path None.
Proof.
  intros base_path exclude.
  assert (G : forall names,
             fst (get_sizes base_path names)
             = fold_left (fun total step => fold_left add_file_size (snd step) total)
                 (walk (fun d => negb (is_in d names)) [] base_path) 0%Z).
  { intros names. unfold get_sizes.
    match goal with
    | |- context [scan ?steps ?s] => destruct (scan_steps steps s) as [S1 _]
    end. exact S1. }
  split; [|split].
  - unfold get_sizes.
    match goal with
    | |- context [scan ?steps ?s] => destruct (scan_steps steps s) as [_ S2]
    end. cbn [fst snd map Zsum fold_right] in S2. lia.
  - intros Hne. rewrite G. unfold _get_dir_size_bytes.
    destruct exclude; [contradiction | reflexivity].
  - rewrite G. reflexivity.
Qed.
End Report.

Lemma get_sizes_total_witness :
  fst (get_sizes Samples.project DEFAULT_EXCLUDE) = 3700%Z
  /\ snd (get_sizes Samples.project DEFAULT_EXCLUDE) = [([], 3000%Z); ([lit "static"], 700%Z)]
  /\ fst (get_sizes Samples.project DEFAULT_EXCLUDE)
     = _get_dir_size_bytes Samples.project (Some DEFAULT_EXCLUDE).
Proof.
  split; [reflexivity|]. split; [reflexivity|].
  apply (proj1 (proj2 (get_sizes_total Samples.project DEFAULT_EXCLUDE))).
  discriminate.
Defined.
